(** * go-filesize: human-readable file sizes

    A shallow embedding of [filesize.go] (package [filesize]): the unit
    table, [ParseSize], [FormatSize] and [ValidateSize], together with
    models of the Go library functions they call
    ([strings.TrimSpace], [strings.ToLower], [regexp] on the fixed pattern,
    [strconv.ParseFloat], [fmt.Sprintf] with the verbs [%d] and [%.Nf]) and
    of binary64 arithmetic, taken from the IEEE 754 specification of the
    standard library ([SpecFloat]).

    Go strings are byte sequences; they are modelled by [string], whose
    characters are 8-bit.  [int64] values are modelled by [Z] together with
    the range predicate [is_int64]. *)

From Stdlib Require Import ZArith Lia Bool List String Ascii.
From Stdlib Require Import Floats.SpecFloat.
From Stdlib Require Import DecimalString DecimalZ DecimalPos DecimalN.
From stdpp Require Import gmap strings.

Open Scope string_scope.
Open Scope Z_scope.

(* ================================================================= *)
(** ** Machine integers *)

Definition is_int64 (z : Z) : Prop := - 2 ^ 63 <= z < 2 ^ 63.

Definition in_int64 (z : Z) : bool := (- 2 ^ 63 <=? z) && (z <? 2 ^ 63).

(* ================================================================= *)
(** ** binary64 floating point *)

Module Float64.

(** Go's [float64] is IEEE 754 binary64: 53 bits of precision, infinities
    at exponent 1024. *)
Definition prec : Z := 53.
Definition emax : Z := 1024.

Definition zero : spec_float := S754_zero false.

(** [float64(n)] for an integer [n]: rounded to nearest, ties to even. *)
Definition of_int (n : Z) : spec_float := binary_normalize prec emax n 0 false.

Definition mul (x y : spec_float) : spec_float := SFmul prec emax x y.
Definition div (x y : spec_float) : spec_float := SFdiv prec emax x y.

(** The comparison operators of the language; every one of them is false
    when an operand is a NaN. *)
Definition ltb (x y : spec_float) : bool := SFltb x y.
Definition gtb (x y : spec_float) : bool := SFltb y x.
Definition geb (x y : spec_float) : bool := SFleb y x.

(** The binary64 number nearest to the rational [num / den] (ties to
    even), for positive [num] and [den]: the quotient is computed with
    enough bits for the rounding to be decided by the remainder. *)
Definition of_ratio (num den : positive) : spec_float :=
  let '(q, e, l) := SFdiv_core_binary prec emax (Zpos num) 0 (Zpos den) 0 in
  binary_round_aux prec emax false q e l.

(** The integer part of a finite number (truncation toward zero). *)
Definition trunc (f : spec_float) : option Z :=
  match f with
  | S754_zero _ => Some 0
  | S754_finite s m e => Some (cond_Zopp s (Z.shiftl (Zpos m) e))
  | _ => None
  end.

(** What a conversion to [int64] yields when the value is not
    representable.  The language leaves it implementation-dependent; this
    is the value the amd64 instruction CVTTSD2SQ produces, which is what
    the gc compiler emits for the conversion on that platform. *)
Definition int64_indefinite : Z := - 2 ^ 63.

(** [int64(f)]. *)
Definition to_int64 (f : spec_float) : Z :=
  match trunc f with
  | Some z => if in_int64 z then z else int64_indefinite
  | None => int64_indefinite
  end.

End Float64.

Abbreviation float64 := spec_float (only parsing).

(* ================================================================= *)
(** ** Package strconv and the verbs of fmt *)

Module strconv.

(** [strconv.Itoa] / the verb [%d]: the decimal numeral of an integer. *)
Definition Itoa (n : Z) : string := NilZero.string_of_int (Z.to_int n).

Inductive NumError := ErrSyntax | ErrRange.

(** Splits a string at its first ['.']. *)
Fixpoint cut_point (s : string) : string * option string :=
  match s with
  | EmptyString => (EmptyString, None)
  | String c r =>
      if Ascii.eqb c "." then (EmptyString, Some r)
      else let '(a, b) := cut_point r in (String c a, b)
  end.

(** A non-empty string of decimal digits, as a decimal number. *)
Definition digits_of_string (s : string) : option Decimal.uint :=
  match s with
  | EmptyString => None
  | _ => NilEmpty.uint_of_string s
  end.

(** The decimal literal [s], of the shape [digits] or [digits.digits],
    as a pair [(n, k)] standing for [n / 10^k]. *)
Definition read_decimal (s : string) : option (Z * nat) :=
  match cut_point s with
  | (ip, None) =>
      match digits_of_string ip with
      | Some d => Some (Z.of_uint d, O)
      | None => None
      end
  | (ip, Some fp) =>
      match digits_of_string ip, digits_of_string fp with
      | Some d1, Some d2 =>
          Some (Z.of_uint (Decimal.app d1 d2), Decimal.nb_digits d2)
      | _, _ => None
      end
  end.

(** [strconv.ParseFloat(s, 64)] on unsigned decimal literals without
    exponent, the only strings [ParseSize] passes to it.  The result is
    the binary64 number nearest to the decimal value (ties to even); when
    that is beyond the largest finite number the function returns
    [+Inf] and [ErrRange].  The library accepts more forms (signs,
    exponents, hexadecimal, infinities and NaN) which the pattern of
    [ParseSize] never lets through; they are reported as [ErrSyntax]
    here. *)
Definition ParseFloat (s : string) : float64 * option NumError :=
  match read_decimal s with
  | None => (Float64.zero, Some ErrSyntax)
  | Some (Zpos n, k) =>
      match Float64.of_ratio n (Z.to_pos (10 ^ Z.of_nat k)) with
      | S754_infinity sg => (S754_infinity sg, Some ErrRange)
      | f => (f, None)
      end
  | Some (_, _) => (Float64.zero, None)
  end.

End strconv.

Module fmt.

(** A numeral padded with zeros on the left to [width] characters. *)
Fixpoint zeros (n : nat) : string :=
  match n with
  | O => EmptyString
  | S n' => String "0" (zeros n')
  end.

Definition pad_left (width : nat) (s : string) : string :=
  zeros (width - String.length s) ++ s.

(** The integer nearest to [num / den], ties to even ([0 < den]). *)
Definition round_half_even (num den : Z) : Z :=
  let q := num / den in
  let r := num mod den in
  match (2 * r ?= den) with
  | Lt => q
  | Eq => if Z.even q then q else q + 1
  | Gt => q + 1
  end.

(** A non-negative number of [10^-p] units, written with [p] decimals. *)
Definition fixed (p : nat) (scaled : Z) : string :=
  let unit := 10 ^ Z.of_nat p in
  strconv.Itoa (scaled / unit) ++
  match p with
  | O => EmptyString
  | _ => String "." (pad_left p (strconv.Itoa (scaled mod unit)))
  end.

(** The verb [%.pf]: the exact decimal expansion of the binary number,
    rounded to [p] decimals (ties to even). *)
Definition Sprintf_f (p : nat) (f : float64) : string :=
  match f with
  | S754_nan => "NaN"
  | S754_infinity s => if s then "-Inf" else "+Inf"
  | S754_zero s => (if s then "-" else "") ++ fixed p 0
  | S754_finite s m e =>
      let scaled :=
        if 0 <=? e then Zpos m * 2 ^ e * 10 ^ Z.of_nat p
        else round_half_even (Zpos m * 10 ^ Z.of_nat p) (2 ^ (- e)) in
      (if s then "-" else "") ++ fixed p scaled
  end.

End fmt.

(* ================================================================= *)
(** ** Package strings *)

Module strings.

Definition code (c : ascii) : N := N_of_ascii c.

(** The ASCII white space of [strings.TrimSpace]:
    tab, line feed, vertical tab, form feed, carriage return, space. *)
Definition asciiSpace (c : ascii) : bool :=
  let n := code c in
  ((9 <=? n) && (n <=? 13) || (n =? 32))%N.

(** The other code points of [unicode.IsSpace], by their UTF-8 encodings:
    U+0085 and U+00A0 take two bytes, *)
Definition space2 (c1 c2 : ascii) : bool :=
  ((code c1 =? 194) && ((code c2 =? 133) || (code c2 =? 160)))%N.

(** and U+1680, U+2000 to U+200A, U+2028, U+2029, U+202F, U+205F and
    U+3000 take three. *)
Definition space3 (c1 c2 c3 : ascii) : bool :=
  let '(n1, n2, n3) := (code c1, code c2, code c3) in
  ((n1 =? 225) && (n2 =? 154) && (n3 =? 128)
   || (n1 =? 226) && (n2 =? 128)
      && ((128 <=? n3) && (n3 <=? 138) || (n3 =? 168) || (n3 =? 169) || (n3 =? 175))
   || (n1 =? 226) && (n2 =? 129) && (n3 =? 159)
   || (n1 =? 227) && (n2 =? 128) && (n3 =? 128))%N.

(** Removes the white space runes at the head of [s].  With
    [backwards] the bytes of [s] are those of a reversed string, so the
    bytes of an encoding come last byte first. *)
Fixpoint trim_head (backwards : bool) (s : string) : string :=
  match s with
  | EmptyString => s
  | String c1 r1 =>
      if asciiSpace c1 then trim_head backwards r1
      else
        match r1 with
        | EmptyString => s
        | String c2 r2 =>
            if (if backwards then space2 c2 c1 else space2 c1 c2)
            then trim_head backwards r2
            else
              match r2 with
              | EmptyString => s
              | String c3 r3 =>
                  if (if backwards then space3 c3 c2 c1 else space3 c1 c2 c3)
                  then trim_head backwards r3
                  else s
              end
        end
  end.

(** [strings.TrimSpace]: the string without leading and trailing white
    space, as defined by Unicode. *)
Definition TrimSpace (s : string) : string :=
  String.rev (trim_head true (String.rev (trim_head false s))).

(** [strings.ToLower] on ASCII letters; other bytes are kept.  This is
    the library function on strings of ASCII characters, as every unit
    token is. *)
Definition lower (c : ascii) : ascii :=
  let n := code c in
  if ((65 <=? n) && (n <=? 90))%N then ascii_of_N (n + 32) else c.

Fixpoint ToLower (s : string) : string :=
  match s with
  | EmptyString => EmptyString
  | String c r => String (lower c) (ToLower r)
  end.

End strings.

(* ================================================================= *)
(** ** The pattern of [ParseSize] *)

Module regexp.

Import strings.

(** The classes of the pattern, which are ASCII-only in Go's syntax:
    [\d] is [0-9], [\s] is tab, line feed, form feed, carriage return and
    space, and the letters are [a-zA-Z]. *)
Definition isDigit (c : ascii) : bool :=
  ((48 <=? code c) && (code c <=? 57))%N.

Definition isSpace (c : ascii) : bool :=
  let n := code c in
  ((n =? 9) || (n =? 10) || (n =? 12) || (n =? 13) || (n =? 32))%N.

Definition isLetter (c : ascii) : bool :=
  let n := code c in
  ((65 <=? n) && (n <=? 90) || (97 <=? n) && (n <=? 122))%N.

(** The longest prefix of [s] in the class [p], and what follows it: a
    greedy [p*]. *)
Fixpoint span (p : ascii -> bool) (s : string) : string * string :=
  match s with
  | EmptyString => (EmptyString, EmptyString)
  | String c r =>
      if p c then let '(a, b) := span p r in (String c a, b)
      else (EmptyString, s)
  end.

(** The pattern, as the source gives it to [regexp.MustCompile]. *)
Definition parseRegex : string := "^(\d+(?:\.\d+)?)\s*([a-zA-Z]*)$".

(** [parseRegex.FindStringSubmatch(s)]: the match and its two groups, or
    [None].  The classes are disjoint and the pattern is anchored at both
    ends, so the greedy match is the only one there can be. *)
Definition FindStringSubmatch (s : string) : option (list string) :=
  let '(ds, r1) := span isDigit s in
  match ds with
  | EmptyString => None
  | _ =>
      let '(number, r2) :=
        match r1 with
        | String "." r1' =>
            let '(fs, r2) := span isDigit r1' in
            match fs with
            | EmptyString => (ds, r1)
            | _ => (ds ++ String "." fs, r2)
            end
        | _ => (ds, r1)
        end in
      let '(_, r3) := span isSpace r2 in
      let '(letters, r4) := span isLetter r3 in
      match r4 with
      | EmptyString => Some [s; number; letters]
      | _ => None
      end
  end.

End regexp.

(* ================================================================= *)
(** ** Package filesize *)

(** Unit constants. *)
Definition Byte : Z := 1.

Definition KiB : Z := Byte * 1024.
Definition MiB : Z := KiB * 1024.
Definition GiB : Z := MiB * 1024.
Definition TiB : Z := GiB * 1024.
Definition PiB : Z := TiB * 1024.

Definition KB : Z := Byte * 1000.
Definition MB : Z := KB * 1000.
Definition GB : Z := MB * 1000.
Definition TB : Z := GB * 1000.
Definition PB : Z := TB * 1000.

(** [unitMap] maps unit strings to their byte multipliers. *)
Definition unitMap : gmap string Z :=
  list_to_map
    [ ("b", Byte); ("byte", Byte); ("bytes", Byte);
      ("kib", KiB); ("mib", MiB); ("gib", GiB); ("tib", TiB); ("pib", PiB);
      ("k", KiB); ("m", MiB); ("g", GiB); ("t", TiB); ("p", PiB);
      ("kb", KB); ("mb", MB); ("gb", GB); ("tb", TB); ("pb", PB) ].

(** The errors of [ParseSize], one constructor per [fmt.Errorf] call, with
    the value the message is formatted from. *)
Inductive SizeError : Type :=
| EmptyInput                          (* "empty size string" *)
| InvalidFormat (sizeStr : string)    (* "invalid size format: %s" *)
| InvalidNumber (numberStr : string)  (* "invalid number: %s" *)
| NegativeSize (number : float64)     (* "size cannot be negative: %f" *)
| UnknownUnit (unitStr : string)      (* "unknown unit: %s" *)
| Overflow (sizeStr : string).        (* "size too large: %s" *)

(** [int64(^uint64(0)>>1)] *)
Definition max_int64 : Z := Z.shiftr (Z.lnot 0 mod 2 ^ 64) 1.

(** [ParseSize] converts a human-readable size string to bytes.  The
    result is the pair the Go function returns: the value and the error,
    [None] standing for [nil]. *)
Definition ParseSize (sizeStr : string) : Z * option SizeError :=
  let sizeStr := strings.TrimSpace sizeStr in
  if String.eqb sizeStr "" then (0, Some EmptyInput)
  else
    match regexp.FindStringSubmatch sizeStr with
    | None => (0, Some (InvalidFormat sizeStr))
    | Some matches =>
        let numberStr := nth 1 matches "" in
        let unitStr := strings.ToLower (nth 2 matches "") in
        match strconv.ParseFloat numberStr with
        | (_, Some _) => (0, Some (InvalidNumber numberStr))
        | (number, None) =>
            if Float64.ltb number Float64.zero
            then (0, Some (NegativeSize number))
            else if String.eqb unitStr ""
            then (Float64.to_int64 number, None)
            else
              match unitMap !! unitStr with
              | None => (0, Some (UnknownUnit unitStr))
              | Some multiplier =>
                  let result := Float64.mul number (Float64.of_int multiplier) in
                  if Float64.gtb result (Float64.of_int max_int64)
                  then (0, Some (Overflow sizeStr))
                  else (Float64.to_int64 result, None)
              end
        end
    end.

(** The units of [FormatSize], in descending order. *)
Record formatUnit : Type := { name : string; multiplier : Z }.

Definition units : list formatUnit :=
  [ {| name := "PiB"; multiplier := PiB |};
    {| name := "TiB"; multiplier := TiB |};
    {| name := "GiB"; multiplier := GiB |};
    {| name := "MiB"; multiplier := MiB |};
    {| name := "KiB"; multiplier := KiB |} ].

(** The value of [bytes] in a unit. *)
Definition unit_value (bytes : Z) (u : formatUnit) : float64 :=
  Float64.div (Float64.of_int bytes) (Float64.of_int (multiplier u)).

(** The body of the loop of [FormatSize] for a unit that fits. *)
Definition format_in (bytes : Z) (u : formatUnit) : string :=
  let value := unit_value bytes u in
  if Float64.geb value (Float64.of_int 100)
  then fmt.Sprintf_f 0 value ++ " " ++ name u
  else if Float64.geb value (Float64.of_int 10)
  then fmt.Sprintf_f 1 value ++ " " ++ name u
  else fmt.Sprintf_f 2 value ++ " " ++ name u.

(** The loop over the units: the first unit the byte count reaches. *)
Fixpoint format_loop (bytes : Z) (us : list formatUnit) : option string :=
  match us with
  | [] => None
  | u :: rest =>
      if multiplier u <=? bytes then Some (format_in bytes u)
      else format_loop bytes rest
  end.

(** [FormatSize] converts a byte count to a human-readable string using
    binary units. *)
Definition FormatSize (bytes : Z) : string :=
  if bytes <? 0 then "0 B"
  else if bytes <? KiB then strconv.Itoa bytes ++ " B"
  else
    match format_loop bytes units with
    | Some s => s
    | None => strconv.Itoa bytes ++ " B"
    end.

(** [ValidateSize] checks a size string: the error of [ParseSize]. *)
Definition ValidateSize (sizeStr : string) : option SizeError :=
  snd (ParseSize sizeStr).

(* ================================================================= *)
(** ** The tests of the package *)

(** What a failed check reports through [t.Errorf]: the test passes when
    nothing is reported. *)
Inductive Failure : Type :=
| ExpectedError (input : string)
    (* "... expected error but got none" *)
| UnexpectedError (input : string) (err : SizeError)
    (* "... unexpected error: %v" *)
| WrongSize (input : string) (result expected : Z)
    (* "ParseSize(%q) = %d, expected %d" *)
| WrongText (input : Z) (result expected : string).
    (* "FormatSize(%d) = %q, expected %q" *)

(** The table of [TestParseSize]: input, expected value, and whether an
    error is expected.  The expected values are constant expressions,
    which the language evaluates exactly. *)
Definition TestParseSize_cases : list (string * Z * bool) :=
  [ ("0", 0, false); ("1", 1, false); ("1024", 1024, false);
    ("2048", 2048, false);
    ("1k", 1024, false); ("1K", 1024, false); ("2k", 2048, false);
    ("1m", 1024 * 1024, false); ("1M", 1024 * 1024, false);
    ("1g", 1024 * 1024 * 1024, false); ("1G", 1024 * 1024 * 1024, false);
    ("1KiB", 1024, false); ("1MiB", 1024 * 1024, false);
    ("1GiB", 1024 * 1024 * 1024, false);
    ("1TiB", 1024 * 1024 * 1024 * 1024, false);
    ("1KB", 1000, false); ("1MB", 1000 * 1000, false);
    ("1GB", 1000 * 1000 * 1000, false);
    ("1TB", 1000 * 1000 * 1000 * 1000, false);
    ("1.5k", 1536, false);       (* int64(1.5 * 1024) *)
    ("2.5KiB", 2560, false);     (* int64(2.5 * 1024) *)
    ("1.5MB", 1500000, false);   (* int64(1.5 * 1000 * 1000) *)
    ("0.5m", 524288, false);     (* int64(0.5 * 1024 * 1024) *)
    ("100b", 100, false); ("100B", 100, false); ("100byte", 100, false);
    ("100bytes", 100, false);
    (" 1k ", 1024, false); ("1 k", 1024, false); (" 1 KiB ", 1024, false);
    ("4k", 4 * 1024, false); ("4kib", 4 * 1024, false);
    ("4KiB", 4 * 1024, false);
    ("", 0, true); ("abc", 0, true); ("k1", 0, true); ("1xy", 0, true);
    ("1.2.3k", 0, true);
    ("-1", 0, true); ("-1k", 0, true);
    ("1XB", 0, true); ("1ZiB", 0, true) ].

(** The loop of [TestParseSize]. *)
Definition TestParseSize : list Failure :=
  flat_map
    (fun '(input, expected, hasError) =>
       let '(result, err) := ParseSize input in
       if hasError : bool then
         match err with
         | None => [ExpectedError input]
         | Some _ => []
         end
       else
         match err with
         | Some e => [UnexpectedError input e]
         | None =>
             if negb (result =? expected)
             then [WrongSize input result expected]
             else []
         end)
    TestParseSize_cases.

Definition TestParseSize_SpecificExamples_cases : list (string * Z) :=
  [ ("4k", 4 * 1024); ("4K", 4 * 1024); ("4kib", 4 * 1024);
    ("4KiB", 4 * 1024); ("4KB", 4 * 1000) ].

Definition TestParseSize_SpecificExamples : list Failure :=
  flat_map
    (fun '(input, expected) =>
       let '(result, err) := ParseSize input in
       match err with
       | Some e => [UnexpectedError input e]
       | None =>
           if negb (result =? expected)
           then [WrongSize input result expected]
           else []
       end)
    TestParseSize_SpecificExamples_cases.

Definition TestFormatSize_cases : list (Z * string) :=
  [ (0, "0 B"); (1, "1 B"); (512, "512 B"); (1023, "1023 B");
    (1024, "1.00 KiB"); (2048, "2.00 KiB"); (1536, "1.50 KiB");
    (10240, "10.0 KiB"); (102400, "100 KiB");
    (1024 * 1024, "1.00 MiB"); (1024 * 1024 * 2, "2.00 MiB");
    (1024 * 1024 * 10, "10.0 MiB"); (1024 * 1024 * 100, "100 MiB");
    (1024 * 1024 * 1024, "1.00 GiB"); (1024 * 1024 * 1024 * 2, "2.00 GiB");
    (-1, "0 B") ].

Definition TestFormatSize : list Failure :=
  flat_map
    (fun '(input, expected) =>
       let result := FormatSize input in
       if negb (String.eqb result expected)
       then [WrongText input result expected]
       else [])
    TestFormatSize_cases.

Definition validSizes : list string :=
  [ "1"; "1k"; "1KiB"; "1.5MB"; "100b"; " 1 k " ].

Definition invalidSizes : list string :=
  [ ""; "abc"; "1xy"; "-1k"; "1ZiB" ].

(** [TestValidateSize]: the loop over the valid sizes, then the loop over
    the invalid ones. *)
Definition TestValidateSize : list Failure :=
  flat_map
    (fun size =>
       match ValidateSize size with
       | Some err => [UnexpectedError size err]
       | None => []
       end)
    validSizes
  ++
  flat_map
    (fun size =>
       match ValidateSize size with
       | None => [ExpectedError size]
       | Some _ => []
       end)
    invalidSizes.

(* ================================================================= *)
(** ** Vocabulary of the statements *)

(** Every character of [s] is in the class [p]. *)
Fixpoint all_chars (p : ascii -> bool) (s : string) : bool :=
  match s with
  | EmptyString => true
  | String c r => p c && all_chars p r
  end.

(** A string made of white space only: a sequence of white space runes of
    Unicode, in their UTF-8 encoding. *)
Inductive blank : string -> Prop :=
| blank_nil : blank EmptyString
| blank_ascii c r :
    strings.asciiSpace c = true -> blank r -> blank (String c r)
| blank_two c1 c2 r :
    strings.space2 c1 c2 = true -> blank r -> blank (String c1 (String c2 r))
| blank_three c1 c2 c3 r :
    strings.space3 c1 c2 c3 = true -> blank r ->
    blank (String c1 (String c2 (String c3 r))).

(** An ASCII character that is not white space: no white space rune
    begins or ends with it. *)
Definition solid (c : ascii) : bool :=
  (strings.code c <? 128)%N && negb (strings.asciiSpace c).

(** The shape of a number: digits, or digits, a point and digits. *)
Definition is_decimal (s : string) : Prop :=
  exists ds : string,
    ds <> "" /\ all_chars regexp.isDigit ds = true /\
    (s = ds \/
     exists fs : string,
       fs <> "" /\ all_chars regexp.isDigit fs = true /\ s = ds ++ String "." fs).

(** What [ParseSize] does with the groups of a match: [numberStr] and the
    unit in lower case, [sizeStr] being the trimmed input. *)
Definition convert (numberStr unitStr sizeStr : string) : Z * option SizeError :=
  match strconv.ParseFloat numberStr with
  | (_, Some _) => (0, Some (InvalidNumber numberStr))
  | (number, None) =>
      if Float64.ltb number Float64.zero
      then (0, Some (NegativeSize number))
      else if String.eqb unitStr ""
      then (Float64.to_int64 number, None)
      else
        match unitMap !! unitStr with
        | None => (0, Some (UnknownUnit unitStr))
        | Some multiplier =>
            let result := Float64.mul number (Float64.of_int multiplier) in
            if Float64.gtb result (Float64.of_int max_int64)
            then (0, Some (Overflow sizeStr))
            else (Float64.to_int64 result, None)
        end
  end.

(** A string [ParseSize] parses without error. *)
Definition accepted (s : string) : bool :=
  match snd (ParseSize s) with
  | None => true
  | Some _ => false
  end.

(** The outputs of [FormatSize] with a given number of decimals, by the
    number shown, in units of the last decimal. *)
Definition accepted_range (p : nat) (hi : Z) (u : formatUnit) : bool :=
  forallb (fun k => accepted (fmt.fixed p (Z.of_nat k) ++ " " ++ name u))
          (seq 0 (Z.to_nat hi + 1)).

(** The outputs with decimals: up to 100 of a unit. *)
Definition accepted_outputs : bool :=
  forallb (fun u => accepted_range 1 1000 u && accepted_range 2 1000 u) units.

(** The outputs for less than a kibibyte. *)
Definition accepted_bytes : bool :=
  forallb (fun k => accepted (FormatSize (Z.of_nat k))) (seq 0 1024).

(** An integer that binary64 holds exactly: at most 53 significant
    bits. *)
Definition representable (z : Z) : Prop :=
  exists c k : Z, 0 <= c < 2 ^ 53 /\ 0 <= k /\ z = c * 2 ^ k.

(** The normal number of mantissa [m] and exponent [e] is the integer [z]:
    [m * 2^e = z], with both sides scaled by [2^1074] to stay in the
    integers. *)
Definition represents (m : positive) (e : Z) (z : Z) : Prop :=
  Zpos (digits2_pos m) = 53 /\ -1074 <= e /\
  Zpos m * 2 ^ (e + 1074) = z * 2 ^ 1074.


(** A number without the sign bit, or a NaN. *)
Definition unsigned (f : float64) : Prop :=
  match f with
  | S754_zero s | S754_infinity s | S754_finite s _ _ => s = false
  | S754_nan => True
  end.

(** Whether a white space rune begins the string (ends it, for the bytes
    of a reversed string). *)
Definition starts_space (backwards : bool) (s : string) : bool :=
  match s with
  | String c1 r1 =>
      strings.asciiSpace c1 ||
      match r1 with
      | String c2 r2 =>
          (if backwards then strings.space2 c2 c1 else strings.space2 c1 c2) ||
          match r2 with
          | String c3 _ =>
              if backwards then strings.space3 c3 c2 c1
              else strings.space3 c1 c2 c3
          | EmptyString => false
          end
      | EmptyString => false
      end
  | EmptyString => false
  end.

(** The number of decimals [FormatSize] prints for a byte count in a unit,
    by comparisons of integers. *)
Definition decimals (bytes mult : Z) : nat :=
  if 100 * mult <=? bytes then 0 else if 10 * mult <=? bytes then 1 else 2.

(** The numbers up to [hi], written with [p] decimals, take at most [w]
    characters. *)
Definition fixed_width (p : nat) (hi : Z) (w : nat) : bool :=
  forallb (fun k => (String.length (fmt.fixed p (Z.of_nat k)) <=? w)%nat)
          (seq 0 (Z.to_nat hi + 1)).

(** The output [scaled / 10^p] of a unit parses to within a byte of its
    value, and to its value when that is a whole number of bytes. *)
Definition output_close (p : nat) (u : formatUnit) (scaled : Z) : bool :=
  match ParseSize (fmt.fixed p scaled ++ " " ++ name u) with
  | (r, None) =>
      let exact := scaled * multiplier u in
      let unit := 10 ^ Z.of_nat p in
      (Z.abs (r * unit - exact) <=? unit) &&
      (negb (exact mod unit =? 0) || (r * unit =? exact))
  | (_, Some _) => false
  end.

(** The outputs with decimals that stand for at most [2^53] bytes. *)
Definition outputs_close : bool :=
  forallb (fun u =>
    forallb (fun p =>
      forallb (fun k =>
        (2 ^ 53 * 10 ^ Z.of_nat p <? Z.of_nat k * multiplier u)
        || output_close p u (Z.of_nat k))
        (seq 0 1001))
      [1%nat; 2%nat])
    units.

(* ================================================================= *)
(** * Properties *)

(* ================================================================= *)
(** ** Characters and strings *)

(** *** Classes of characters *)

(** Facts on the classes of characters are decided by running through the
    256 characters. *)
Ltac by_cases_on c :=
  destruct c as [[] [] [] [] [] [] [] []]; vm_compute; congruence.

Lemma isSpace_not_digit c : regexp.isSpace c = true -> regexp.isDigit c = false.
Proof. by_cases_on c. Qed.

Lemma isLetter_not_digit c : regexp.isLetter c = true -> regexp.isDigit c = false.
Proof. by_cases_on c. Qed.

Lemma isLetter_not_space c : regexp.isLetter c = true -> regexp.isSpace c = false.
Proof. by_cases_on c. Qed.

Lemma isSpace_not_point c : regexp.isSpace c = true -> c <> "."%char.
Proof. by_cases_on c. Qed.

Lemma isLetter_not_point c : regexp.isLetter c = true -> c <> "."%char.
Proof. by_cases_on c. Qed.

Lemma isDigit_not_point c : regexp.isDigit c = true -> Ascii.eqb c "." = false.
Proof. by_cases_on c. Qed.

Lemma isDigit_solid c : regexp.isDigit c = true -> solid c = true.
Proof. by_cases_on c. Qed.

Lemma isSpace_asciiSpace c : regexp.isSpace c = true -> strings.asciiSpace c = true.
Proof. by_cases_on c. Qed.

Lemma isLetter_solid c : regexp.isLetter c = true -> solid c = true.
Proof. by_cases_on c. Qed.



Create HintDb chars.

#[local] Hint Resolve isDigit_solid isSpace_not_digit isLetter_not_digit
  isLetter_not_space isSpace_not_point isLetter_not_point : chars.

(** *** Append and reverse *)

Lemma app_cons c (s t : string) : String c s ++ t = String c (s ++ t).
Proof. reflexivity. Qed.

Lemma app_empty_l (t : string) : "" ++ t = t.
Proof. reflexivity. Qed.

Lemma app_empty_r (s : string) : s ++ "" = s.
Proof. induction s as [|c s IH]; [reflexivity|]. now rewrite app_cons, IH. Qed.

Lemma app_assoc_str (s t u : string) : (s ++ t) ++ u = s ++ (t ++ u).
Proof.
  induction s as [|c s IH]; [reflexivity|]. now rewrite !app_cons, IH.
Qed.

Lemma rev_app_eq (s t : string) : String.rev_app s t = String.rev s ++ t.
Proof.
  unfold String.rev. revert t.
  induction s as [|c s IH]; intros t; simpl; [reflexivity|].
  rewrite (IH (String c t)), (IH (String c "")), app_assoc_str. reflexivity.
Qed.

Lemma rev_cons c (s : string) : String.rev (String c s) = String.rev s ++ String c "".
Proof. unfold String.rev at 1. simpl. apply rev_app_eq. Qed.

Lemma rev_append (s t : string) : String.rev (s ++ t) = String.rev t ++ String.rev s.
Proof.
  induction s as [|c s IH].
  - now rewrite app_empty_r.
  - now rewrite app_cons, !rev_cons, IH, app_assoc_str.
Qed.

Lemma rev_involutive_str (s : string) : String.rev (String.rev s) = s.
Proof.
  induction s as [|c s IH]; [reflexivity|].
  now rewrite rev_cons, rev_append, IH.
Qed.

Lemma all_chars_app p (s t : string) :
  all_chars p (s ++ t) = all_chars p s && all_chars p t.
Proof.
  induction s as [|c s IH]; [reflexivity|].
  rewrite app_cons. simpl. now rewrite IH, andb_assoc.
Qed.

Lemma all_chars_rev p (s : string) : all_chars p (String.rev s) = all_chars p s.
Proof.
  induction s as [|c s IH]; [reflexivity|].
  rewrite rev_cons, all_chars_app, IH. simpl. rewrite andb_true_r. apply andb_comm.
Qed.

Lemma all_chars_impl (p q : ascii -> bool) (s : string) :
  (forall c, p c = true -> q c = true) ->
  all_chars p s = true -> all_chars q s = true.
Proof.
  intros Hpq. induction s as [|c s IH]; simpl; [easy|].
  rewrite !andb_true_iff. intros [Hc Hs]. auto.
Qed.

(** The first and the last character of a non-empty string of a class. *)
Lemma all_chars_ends p (s : string) :
  s <> "" -> all_chars p s = true ->
  exists c r c' t,
    s = String c r /\ p c = true /\ String.rev s = String c' t /\ p c' = true.
Proof.
  intros Hne Hall. destruct s as [|c r]; [contradiction|].
  pose proof Hall as Hrev. rewrite <- all_chars_rev in Hrev.
  destruct (String.rev (String c r)) as [|c' t] eqn:Hr.
  - rewrite rev_cons in Hr. now destruct (String.rev r).
  - simpl in Hall, Hrev. apply andb_true_iff in Hall as [Hc _].
    apply andb_true_iff in Hrev as [Hc' _]. now exists c, r, c', t.
Qed.

(** *** [strings.ToLower] *)



(** *** [strings.TrimSpace] *)

Lemma space2_solid_l c1 c2 : solid c1 = true -> strings.space2 c1 c2 = false.
Proof.
  unfold solid, strings.space2. rewrite andb_true_iff, N.ltb_lt. intros [H _].
  destruct (N.eqb_spec (strings.code c1) 194); [lia|reflexivity].
Qed.

Lemma space2_solid_r c1 c2 : solid c2 = true -> strings.space2 c1 c2 = false.
Proof.
  unfold solid, strings.space2. rewrite andb_true_iff, N.ltb_lt. intros [H _].
  destruct (N.eqb_spec (strings.code c2) 133); [lia|].
  destruct (N.eqb_spec (strings.code c2) 160); [lia|]. apply andb_false_r.
Qed.

Lemma space3_solid_l c1 c2 c3 : solid c1 = true -> strings.space3 c1 c2 c3 = false.
Proof.
  unfold solid, strings.space3. rewrite andb_true_iff, N.ltb_lt. intros [H _].
  destruct (N.eqb_spec (strings.code c1) 225); [lia|].
  destruct (N.eqb_spec (strings.code c1) 226); [lia|].
  destruct (N.eqb_spec (strings.code c1) 227); [lia|]. reflexivity.
Qed.

Lemma space3_solid_r c1 c2 c3 : solid c3 = true -> strings.space3 c1 c2 c3 = false.
Proof.
  unfold solid, strings.space3. rewrite andb_true_iff, N.ltb_lt. intros [H _].
  destruct (N.eqb_spec (strings.code c3) 128); [lia|].
  destruct (N.eqb_spec (strings.code c3) 159); [lia|].
  destruct (N.eqb_spec (strings.code c3) 168); [lia|].
  destruct (N.eqb_spec (strings.code c3) 169); [lia|].
  destruct (N.eqb_spec (strings.code c3) 175); [lia|].
  destruct (N.leb_spec 128 (strings.code c3)); [lia|].
  now rewrite !andb_false_r.
Qed.

Lemma space2_lead c1 c2 :
  strings.space2 c1 c2 = true -> strings.asciiSpace c1 = false.
Proof.
  unfold strings.space2, strings.asciiSpace.
  destruct (N.eqb_spec (strings.code c1) 194) as [->|]; [reflexivity|discriminate].
Qed.

Lemma space3_lead c1 c2 c3 :
  strings.space3 c1 c2 c3 = true ->
  strings.asciiSpace c1 = false /\ strings.space2 c1 c2 = false.
Proof.
  unfold strings.space3, strings.space2, strings.asciiSpace.
  destruct (N.eqb_spec (strings.code c1) 225) as [->|];
    [split; reflexivity|].
  destruct (N.eqb_spec (strings.code c1) 226) as [->|];
    [split; reflexivity|].
  destruct (N.eqb_spec (strings.code c1) 227) as [->|];
    [split; reflexivity|discriminate].
Qed.

Lemma space2_trail c1 c2 :
  strings.space2 c1 c2 = true -> strings.asciiSpace c2 = false.
Proof.
  unfold strings.space2, strings.asciiSpace.
  destruct (N.eqb_spec (strings.code c2) 133) as [->|];
    [intros _; reflexivity|].
  destruct (N.eqb_spec (strings.code c2) 160) as [->|];
    [intros _; reflexivity|]. now rewrite andb_false_r.
Qed.

Lemma space3_trail c1 c2 c3 :
  strings.space3 c1 c2 c3 = true ->
  strings.asciiSpace c3 = false /\ strings.space2 c2 c3 = false.
Proof.
  unfold strings.space3, strings.space2, strings.asciiSpace. cbv beta iota zeta.
  intros H.
  assert (Hn : (128 <= strings.code c3)%N /\ strings.code c2 <> 194%N).
  { repeat (rewrite ?orb_true_iff, ?andb_true_iff, ?N.eqb_eq, ?N.leb_le in H). lia. }
  destruct Hn as [H3 H2]. split.
  - destruct (N.leb_spec (strings.code c3) 13); [lia|].
    destruct (N.eqb_spec (strings.code c3) 32); [lia|].
    now rewrite andb_false_r.
  - now destruct (N.eqb_spec (strings.code c2) 194).
Qed.

(** Nothing is removed in front of a character that is not white space. *)
Lemma trim_head_solid b c (r : string) :
  solid c = true -> strings.trim_head b (String c r) = String c r.
Proof.
  intros Hc. assert (Ha : strings.asciiSpace c = false).
  { unfold solid in Hc. apply andb_true_iff in Hc as [_ Hc].
    now apply negb_true_iff in Hc. }
  simpl. rewrite Ha. destruct r as [|c2 r2]; [reflexivity|].
  destruct b.
  - rewrite (space2_solid_r c2 c Hc). destruct r2 as [|c3 r3]; [reflexivity|].
    now rewrite (space3_solid_r c3 c2 c Hc).
  - rewrite (space2_solid_l c c2 Hc). destruct r2 as [|c3 r3]; [reflexivity|].
    now rewrite (space3_solid_l c c2 c3 Hc).
Qed.

(** A string that begins and ends with such characters is left as it is. *)
Lemma TrimSpace_solid c (s : string) c' (t : string) :
  solid c = true -> solid c' = true -> String.rev (String c s) = String c' t ->
  strings.TrimSpace (String c s) = String c s.
Proof.
  intros Hc Hc' Hrev. unfold strings.TrimSpace.
  rewrite (trim_head_solid false c s Hc), Hrev, (trim_head_solid true c' t Hc').
  rewrite <- Hrev. apply rev_involutive_str.
Qed.

(** Whatever is removed in front, a final solid character stays. *)
Lemma trim_head_keeps_last b c (Hc : solid c = true) :
  forall (n : nat) (x : string), (String.length x <= n)%nat ->
  exists y, strings.trim_head b (x ++ String c "") = y ++ String c "".
Proof.
  induction n as [|n IH]; intros x Hlen.
  - destruct x; [|simpl in Hlen; lia]. exists "". rewrite app_empty_l.
    apply (trim_head_solid b c "" Hc).
  - destruct x as [|c1 x1].
    { exists "". rewrite app_empty_l. apply (trim_head_solid b c "" Hc). }
    simpl in Hlen. rewrite app_cons. simpl.
    destruct (strings.asciiSpace c1); [apply IH; lia|].
    destruct x1 as [|c2 x2].
    { exists (String c1 ""). rewrite app_empty_l.
      destruct b; [rewrite space2_solid_l|rewrite space2_solid_r]; auto. }
    simpl in Hlen. rewrite app_cons.
    destruct (if b then strings.space2 c2 c1 else strings.space2 c1 c2);
      [apply IH; lia|].
    destruct x2 as [|c3 x3].
    { exists (String c1 (String c2 "")). rewrite app_empty_l.
      destruct b; [rewrite space3_solid_l|rewrite space3_solid_r]; auto. }
    simpl in Hlen. rewrite app_cons.
    destruct (if b then strings.space3 c3 c2 c1 else strings.space3 c1 c2 c3);
      [apply IH; lia|].
    exists (String c1 (String c2 (String c3 x3))). reflexivity.
Qed.

(** Trimming keeps a solid first character. *)
Lemma TrimSpace_keeps_first c (s : string) :
  solid c = true -> exists r, strings.TrimSpace (String c s) = String c r.
Proof.
  intros Hc. unfold strings.TrimSpace.
  rewrite (trim_head_solid false c s Hc), rev_cons.
  destruct (trim_head_keeps_last true c Hc (String.length (String.rev s))
              (String.rev s) (le_n _)) as [y ->].
  exists (String.rev y). now rewrite rev_append.
Qed.

Lemma blank_app (a b : string) : blank a -> blank b -> blank (a ++ b).
Proof.
  induction 1; intros Hb; rewrite ?app_cons; try rewrite IHblank by assumption.
  - now rewrite app_empty_l.
  - apply blank_ascii; auto.
  - apply blank_two; auto.
  - apply blank_three; auto.
Qed.

Lemma blank_spaces (ws : string) : all_chars regexp.isSpace ws = true -> blank ws.
Proof.
  induction ws as [|c ws IH]; simpl; [constructor|].
  rewrite andb_true_iff. intros [Hc Hws].
  apply blank_ascii; auto using isSpace_asciiSpace.
Qed.

(** A blank string is trimmed to the empty string. *)
Lemma trim_head_blank (s : string) : blank s -> strings.trim_head false s = "".
Proof.
  induction 1 as [|c r Hc _ IH|c1 c2 r Hc _ IH|c1 c2 c3 r Hc _ IH]; simpl.
  - reflexivity.
  - now rewrite Hc.
  - now rewrite (space2_lead _ _ Hc), Hc.
  - destruct (space3_lead _ _ _ Hc) as [-> ->]. now rewrite Hc.
Qed.

Lemma TrimSpace_blank (s : string) : blank s -> strings.TrimSpace s = "".
Proof. intros H. unfold strings.TrimSpace. now rewrite (trim_head_blank s H). Qed.

Lemma trim_head_blank_app (pre x : string) :
  blank pre -> strings.trim_head false (pre ++ x) = strings.trim_head false x.
Proof.
  induction 1 as [|c r Hc _ IH|c1 c2 r Hc _ IH|c1 c2 c3 r Hc _ IH];
    rewrite ?app_cons.
  - now rewrite app_empty_l.
  - simpl. now rewrite Hc.
  - simpl. now rewrite (space2_lead _ _ Hc), Hc.
  - simpl. destruct (space3_lead _ _ _ Hc) as [-> ->]. now rewrite Hc.
Qed.

(** White space before a string is trimmed away. *)
Lemma TrimSpace_blank_app (pre x : string) :
  blank pre -> strings.TrimSpace (pre ++ x) = strings.TrimSpace x.
Proof.
  intros Hpre. unfold strings.TrimSpace. now rewrite trim_head_blank_app.
Qed.

Lemma trim_head_rev_blank (post : string) :
  blank post ->
  forall x, strings.trim_head true (String.rev post ++ x) = strings.trim_head true x.
Proof.
  induction 1 as [|c r Hc _ IH|c1 c2 r Hc _ IH|c1 c2 c3 r Hc _ IH]; intros x.
  - reflexivity.
  - rewrite rev_cons, app_assoc_str, IH, app_cons, app_empty_l.
    simpl. now rewrite Hc.
  - rewrite !rev_cons, !app_assoc_str, IH, !app_cons, !app_empty_l.
    simpl. now rewrite (space2_trail _ _ Hc), Hc.
  - rewrite !rev_cons, !app_assoc_str, IH, !app_cons, !app_empty_l.
    simpl. destruct (space3_trail _ _ _ Hc) as [-> ->]. now rewrite Hc.
Qed.

(** White space around a string that begins and ends with solid
    characters is removed, and nothing else. *)
Lemma TrimSpace_around (pre post : string) c (r : string) c' (t : string) :
  blank pre -> blank post ->
  solid c = true -> solid c' = true -> String.rev (String c r) = String c' t ->
  strings.TrimSpace (pre ++ String c r ++ post) = String c r.
Proof.
  intros Hpre Hpost Hc Hc' Hrev. unfold strings.TrimSpace.
  rewrite (trim_head_blank_app pre _ Hpre), app_cons.
  rewrite (trim_head_solid false c _ Hc), <- app_cons, rev_append.
  rewrite (trim_head_rev_blank post Hpost), Hrev.
  rewrite (trim_head_solid true c' t Hc'), <- Hrev.
  apply rev_involutive_str.
Qed.

(* ================================================================= *)
(** ** The pattern *)

Lemma span_all p (s : string) : all_chars p s = true -> regexp.span p s = (s, "").
Proof.
  induction s as [|c s IH]; simpl; [reflexivity|].
  rewrite andb_true_iff. intros [-> Hs]. now rewrite (IH Hs).
Qed.

(** [span] splits its argument, the prefix is in the class and the rest
    does not begin in the class. *)
Lemma span_spec p (s a b : string) :
  regexp.span p s = (a, b) ->
  s = a ++ b /\ all_chars p a = true /\
  match b with String c _ => p c = false | EmptyString => True end.
Proof.
  revert a b. induction s as [|c s IH]; simpl; intros a b H.
  - now inversion H.
  - destruct (p c) eqn:Hc.
    + destruct (regexp.span p s) as [a' b'] eqn:Hs. inversion H; subst.
      destruct (IH a' b eq_refl) as (-> & Ha & Hb).
      rewrite app_cons. simpl. now rewrite Hc, Ha.
    + inversion H; subst. now rewrite app_empty_l.
Qed.

(** Conversely, every string of that shape matches, with these groups. *)
Lemma span_app p (a b : string) :
  all_chars p a = true ->
  match b with String c _ => p c = false | EmptyString => True end ->
  regexp.span p (a ++ b) = (a, b).
Proof.
  intros Ha Hb. induction a as [|c a IH].
  - rewrite app_empty_l. destruct b as [|c b]; [reflexivity|]. simpl. now rewrite Hb.
  - simpl in Ha. apply andb_true_iff in Ha as [Hc Ha].
    rewrite app_cons. simpl. now rewrite Hc, (IH Ha).
Qed.

Lemma head_of_app (P : ascii -> Prop) (a b : string) :
  match a with String c _ => P c | EmptyString => True end ->
  match b with String c _ => P c | EmptyString => True end ->
  match a ++ b with String c _ => P c | EmptyString => True end.
Proof. destruct a; [now rewrite app_empty_l|now rewrite app_cons]. Qed.

Lemma head_all (p : ascii -> bool) (P : ascii -> Prop) (a : string) :
  (forall c, p c = true -> P c) -> all_chars p a = true ->
  match a with String c _ => P c | EmptyString => True end.
Proof.
  intros HP. destruct a as [|c a]; simpl; [easy|].
  rewrite andb_true_iff. intros [Hc _]. auto.
Qed.

(** The pattern does not match a string that begins with anything but a
    digit. *)
Lemma FindStringSubmatch_no_digit c (r : string) :
  regexp.isDigit c = false -> regexp.FindStringSubmatch (String c r) = None.
Proof. intros Hc. unfold regexp.FindStringSubmatch. simpl. now rewrite Hc. Qed.

(** A non-empty string of digits matches, with itself as the number and no
    unit. *)
Lemma FindStringSubmatch_digits c (r : string) :
  all_chars regexp.isDigit (String c r) = true ->
  regexp.FindStringSubmatch (String c r) = Some [String c r; String c r; ""].
Proof.
  intros H. unfold regexp.FindStringSubmatch. now rewrite (span_all _ _ H).
Qed.

(** What a match is: the subject is a number, white space and letters,
    and the groups are the number and the letters. *)
Lemma FindStringSubmatch_spec (s : string) (l : list string) :
  regexp.FindStringSubmatch s = Some l ->
  exists number ws letters : string,
    l = [s; number; letters] /\ s = number ++ ws ++ letters /\
    is_decimal number /\
    all_chars regexp.isSpace ws = true /\
    all_chars regexp.isLetter letters = true.
Proof.
  unfold regexp.FindStringSubmatch.
  destruct (regexp.span regexp.isDigit s) as [ds r1] eqn:Hds.
  destruct (span_spec _ _ _ _ Hds) as (Hs & Hdsd & Hr1).
  destruct ds as [|d0 ds']; [discriminate|]. set (ds := String d0 ds') in *.
  assert (Hgen : forall number r2,
    s = number ++ r2 -> is_decimal number ->
    (let '(_, r3) := regexp.span regexp.isSpace r2 in
     let '(letters, r4) := regexp.span regexp.isLetter r3 in
     match r4 with
     | "" => Some [s; number; letters]
     | String _ _ => None
     end) = Some l ->
    exists number ws letters : string,
      l = [s; number; letters] /\ s = number ++ ws ++ letters /\
      is_decimal number /\
      all_chars regexp.isSpace ws = true /\
      all_chars regexp.isLetter letters = true).
  { intros number r2 Hsplit Hnum.
    destruct (regexp.span regexp.isSpace r2) as [ws r3] eqn:Hws.
    destruct (regexp.span regexp.isLetter r3) as [letters r4] eqn:Hls.
    destruct r4; [|discriminate]. intros [= <-].
    destruct (span_spec _ _ _ _ Hws) as (-> & Hwsd & _).
    destruct (span_spec _ _ _ _ Hls) as (-> & Hlsd & _).
    exists number, ws, letters. rewrite app_empty_r in Hsplit. auto. }
  assert (Hplain : is_decimal ds).
  { exists ds. repeat split; [discriminate|assumption|now left]. }
  destruct r1 as [|c1 r1']; [now apply Hgen|].
  destruct (Ascii.eqb_spec c1 ".") as [->|Hne].
  - destruct (regexp.span regexp.isDigit r1') as [fs r2] eqn:Hfs.
    destruct (span_spec _ _ _ _ Hfs) as (-> & Hfsd & _).
    destruct fs as [|f0 fs']; [now apply Hgen|].
    apply Hgen.
    + rewrite Hs, app_assoc_str, app_cons. reflexivity.
    + exists ds. repeat split; [discriminate|assumption|right].
      exists (String f0 fs'). repeat split; [discriminate|assumption].
  - assert (Hsame :
      match c1 with
      | "."%char =>
          let '(fs, r2) := regexp.span regexp.isDigit r1' in
          match fs with
          | "" => (ds, String c1 r1')
          | String _ _ => (ds ++ String "." fs, r2)
          end
      | _ => (ds, String c1 r1')
      end = (ds, String c1 r1')).
    { destruct c1 as [[] [] [] [] [] [] [] []]; try reflexivity.
      now contradiction Hne. }
    rewrite Hsame. now apply Hgen.
Qed.

Lemma FindStringSubmatch_complete (number ws letters : string) :
  is_decimal number ->
  all_chars regexp.isSpace ws = true ->
  all_chars regexp.isLetter letters = true ->
  regexp.FindStringSubmatch (number ++ ws ++ letters) =
    Some [number ++ ws ++ letters; number; letters].
Proof.
  intros (ds & Hne & Hds & Hshape) Hws Hls.
  assert (Htail_digit :
    match ws ++ letters with
    | String c _ => regexp.isDigit c = false | EmptyString => True end).
  { apply head_of_app.
    - apply (head_all regexp.isSpace); auto with chars.
    - apply (head_all regexp.isLetter); auto with chars. }
  assert (Htail_point :
    match ws ++ letters with
    | String c _ => c <> "."%char | EmptyString => True end).
  { apply head_of_app.
    - apply (head_all regexp.isSpace); auto with chars.
    - apply (head_all regexp.isLetter); auto with chars. }
  assert (Hrest :
    (let '(_, r3) := regexp.span regexp.isSpace (ws ++ letters) in
     let '(ls, r4) := regexp.span regexp.isLetter r3 in
     (ls, r4)) = (letters, "")).
  { rewrite (span_app regexp.isSpace ws letters Hws).
    - rewrite <- (app_empty_r letters) at 1.
      now rewrite (span_app regexp.isLetter letters "" Hls).
    - apply (head_all regexp.isLetter); auto with chars. }
  destruct (regexp.span regexp.isSpace (ws ++ letters)) as [w3 r3] eqn:Hsp.
  destruct (regexp.span regexp.isLetter r3) as [l4 r4] eqn:Hlt.
  injection Hrest as -> ->.
  unfold regexp.FindStringSubmatch.
  destruct Hshape as [->|(fs & Hfne & Hfs & ->)].
  - rewrite (span_app regexp.isDigit ds (ws ++ letters) Hds Htail_digit).
    destruct ds as [|d0 ds']; [contradiction|].
    destruct (ws ++ letters) as [|c1 r1'] eqn:Htail.
    + simpl in *. injection Hsp as <- <-. simpl in Hlt. now injection Hlt as <-.
    + assert (Hsame :
        match c1 with
        | "."%char =>
            let '(fs, r2) := regexp.span regexp.isDigit r1' in
            match fs with
            | "" => (String d0 ds', String c1 r1')
            | String _ _ => (String d0 ds' ++ String "." fs, r2)
            end
        | _ => (String d0 ds', String c1 r1')
        end = (String d0 ds', String c1 r1')).
      { destruct c1 as [[] [] [] [] [] [] [] []]; try reflexivity.
        now contradiction Htail_point. }
      rewrite Hsame, Hsp, Hlt. reflexivity.
  - rewrite app_assoc_str, app_cons.
    rewrite (span_app regexp.isDigit ds (String "." (fs ++ ws ++ letters)) Hds eq_refl).
    destruct ds as [|d0 ds']; [contradiction|].
    rewrite (span_app regexp.isDigit fs (ws ++ letters) Hfs Htail_digit).
    destruct fs as [|f0 fs']; [contradiction|].
    rewrite Hsp, Hlt. reflexivity.
Qed.

Lemma is_decimal_ends (number : string) :
  is_decimal number ->
  exists c r c' t,
    number = String c r /\ solid c = true /\
    String.rev number = String c' t /\ solid c' = true.
Proof.
  intros (ds & Hne & Hds & Hshape).
  destruct (all_chars_ends _ ds Hne Hds) as (c & r & c' & t & Eds & Hc & Hrev & Hc').
  destruct Hshape as [->|(fs & Hfne & Hfs & ->)].
  - exists c, r, c', t. auto with chars.
  - destruct (all_chars_ends _ fs Hfne Hfs) as (f & fr & f' & ft & _ & _ & Hfrev & Hf').
    exists c, (r ++ String "." fs), f', (ft ++ String "." "" ++ String.rev ds).
    repeat split; auto with chars.
    + now rewrite Eds at 1.
    + now rewrite rev_append, rev_cons, Hfrev, !app_assoc_str, app_cons.
Qed.

(* ================================================================= *)
(** ** binary64 *)

(** *** Number of bits *)

Lemma pow2_pos (n : Z) : 0 <= n -> 0 < 2 ^ n.
Proof. intros. apply Z.pow_pos_nonneg; lia. Qed.

Lemma digits2_pos_bounds (p : positive) :
  2 ^ (Zpos (digits2_pos p) - 1) <= Zpos p < 2 ^ Zpos (digits2_pos p).
Proof.
  induction p as [p IH|p IH|]; simpl digits2_pos;
    [rewrite Pos2Z.inj_succ; change (Zpos p~1) with (2 * Zpos p + 1)
    |rewrite Pos2Z.inj_succ; change (Zpos p~0) with (2 * Zpos p)|simpl; lia].
  all: replace (Z.succ (Zpos (digits2_pos p)) - 1)
         with (Z.succ (Zpos (digits2_pos p) - 1)) by lia.
  all: rewrite !Z.pow_succ_r by lia.
  all: destruct IH as [Hlo Hhi].
  all: set (a := 2 ^ (Zpos (digits2_pos p) - 1)) in *.
  all: set (b := 2 ^ Zpos (digits2_pos p)) in *.
  all: clearbody a b; lia.
Qed.

Lemma digits2_pos_unique (p : positive) (k : Z) :
  2 ^ (k - 1) <= Zpos p < 2 ^ k -> Zpos (digits2_pos p) = k.
Proof.
  intros [Hlo Hhi]. pose proof (digits2_pos_bounds p) as [Hlo' Hhi'].
  set (d := Zpos (digits2_pos p)) in *.
  assert (0 < k).
  { destruct (Z_lt_le_dec 0 k); [assumption|].
    destruct (Z.eq_dec k 0) as [->|]; [simpl in Hhi; lia|].
    rewrite Z.pow_neg_r in Hhi by lia. lia. }
  destruct (Z_lt_le_dec d k) as [Hlt|Hge].
  - assert (2 ^ d <= 2 ^ (k - 1)) by (apply Z.pow_le_mono_r; lia). lia.
  - destruct (Z.eq_dec d k); [assumption|].
    assert (2 ^ k <= 2 ^ (d - 1)) by (apply Z.pow_le_mono_r; lia). lia.
Qed.

Lemma digits_below (p : positive) (k : Z) :
  0 <= k -> Zpos p < 2 ^ k -> 1 <= Zpos (digits2_pos p) <= k.
Proof.
  intros Hk Hp. pose proof (digits2_pos_bounds p) as [Hlo Hhi].
  set (d := Zpos (digits2_pos p)) in *. split; [subst d; lia|].
  destruct (Z_le_gt_dec d k); [assumption|].
  assert (2 ^ k <= 2 ^ (d - 1)) by (apply Z.pow_le_mono_r; lia). lia.
Qed.

Lemma digits_above (p : positive) (k : Z) :
  0 <= k -> 2 ^ k <= Zpos p -> k + 1 <= Zpos (digits2_pos p).
Proof.
  intros Hk Hp. pose proof (digits2_pos_bounds p) as [Hlo Hhi].
  set (d := Zpos (digits2_pos p)) in *.
  destruct (Z_lt_le_dec k d); [lia|].
  assert (2 ^ d <= 2 ^ k) by (apply Z.pow_le_mono_r; subst d; lia). lia.
Qed.

Lemma digits_scaled (m0 : positive) (k : Z) (mm : positive) :
  0 <= k -> Zpos mm = Zpos m0 * 2 ^ k ->
  Zpos (digits2_pos mm) = Zpos (digits2_pos m0) + k.
Proof.
  intros Hk Hmm. apply digits2_pos_unique. rewrite Hmm.
  pose proof (digits2_pos_bounds m0) as [Hlo Hhi].
  set (d := Zpos (digits2_pos m0)) in *.
  replace (d + k - 1) with (d - 1 + k) by lia.
  rewrite !Z.pow_add_r by lia.
  pose proof (pow2_pos k Hk). split; nia.
Qed.

Lemma iter_xO (a n : positive) : Zpos (Pos.iter xO a n) = Zpos a * 2 ^ Zpos n.
Proof.
  induction n as [|n IH] using Pos.peano_ind.
  - simpl. lia.
  - rewrite Pos.iter_succ, Pos2Z.inj_xO, IH, Pos2Z.inj_succ, Z.pow_succ_r by lia. lia.
Qed.

(** *** Shifts *)

Lemma iter_pos_nat {A} (f : A -> A) (p : positive) (x : A) :
  SpecFloat.iter_pos f p x = Nat.iter (Pos.to_nat p) f x.
Proof.
  revert x. induction p as [p IH|p IH|]; intros x; simpl SpecFloat.iter_pos.
  - rewrite !IH, Pos2Nat.inj_xI. 
    replace (S (2 * Pos.to_nat p)) with (Pos.to_nat p + S (Pos.to_nat p))%nat by lia.
    rewrite Nat.iter_add. f_equal. now rewrite Nat.iter_succ_r.
  - rewrite !IH, Pos2Nat.inj_xO.
    replace (2 * Pos.to_nat p)%nat with (Pos.to_nat p + Pos.to_nat p)%nat by lia.
    now rewrite Nat.iter_add.
  - reflexivity.
Qed.

(** Shifting a mantissa right halves it. *)
Lemma shr_1_m (r : shr_record) : 0 <= shr_m r -> shr_m (shr_1 r) = shr_m r / 2.
Proof.
  destruct r as [m rb sb]; simpl. intros Hm.
  destruct m as [|[p|p|]|p]; simpl; try reflexivity; try lia.
  - change (Zpos p~1) with (2 * Zpos p + 1). apply Z.div_unique with 1; lia.
  - change (Zpos p~0) with (2 * Zpos p). apply Z.div_unique with 0; lia.
Qed.

Lemma shr_iter_m (n : nat) (r : shr_record) :
  0 <= shr_m r -> shr_m (Nat.iter n shr_1 r) = shr_m r / 2 ^ Z.of_nat n.
Proof.
  intros Hm. induction n as [|n IH].
  - simpl. now rewrite Z.div_1_r.
  - rewrite Nat2Z.inj_succ, Z.pow_succ_r by lia. simpl Nat.iter.
    rewrite shr_1_m, IH.
    + rewrite Z.div_div by lia. f_equal; lia.
    + rewrite IH. apply Z.div_pos; lia.
Qed.

(** Shifting out zeros loses nothing. *)
Lemma shr_iter_exact (n : nat) (m : positive) :
  Nat.iter n shr_1 (Build_shr_record (Zpos m * 2 ^ Z.of_nat n) false false)
  = Build_shr_record (Zpos m) false false.
Proof.
  induction n as [|n IH].
  - simpl. f_equal. lia.
  - rewrite Nat.iter_succ_r, Nat2Z.inj_succ, Z.pow_succ_r by lia.
    replace (Zpos m * (2 * 2 ^ Z.of_nat n)) with (Zpos (xO (m * Z.to_pos (2 ^ Z.of_nat n)))).
    + simpl shr_1. rewrite <- IH. do 2 f_equal. rewrite Pos2Z.inj_mul, Z2Pos.id; lia.
    + rewrite Pos2Z.inj_xO, Pos2Z.inj_mul, Z2Pos.id; lia.
Qed.

Lemma shr_exact (m0 : positive) (e n : Z) :
  0 <= n ->
  shr (Build_shr_record (Zpos m0 * 2 ^ n) false false) e n
  = (Build_shr_record (Zpos m0) false false, e + n).
Proof.
  intros Hn. destruct n as [|p|p]; [| |lia].
  - simpl. repeat f_equal; lia.
  - unfold shr. rewrite iter_pos_nat.
    rewrite <- (positive_nat_Z p) at 1. now rewrite shr_iter_exact.
Qed.

(** *** Rounding *)

Lemma fexp_normal (x : Z) :
  -1074 <= x - 53 -> fexp Float64.prec Float64.emax x = x - 53.
Proof. unfold fexp, emin, Float64.prec, Float64.emax. lia. Qed.

(** A mantissa of 53 bits followed by zeros is rounded to itself. *)
Lemma round_exact (m0 : positive) (k e : Z) :
  Zpos (digits2_pos m0) = 53 -> 0 <= k -> -1074 <= e + k <= 971 ->
  binary_round_aux Float64.prec Float64.emax false (Zpos m0 * 2 ^ k) e loc_Exact
  = S754_finite false m0 (e + k).
Proof.
  intros Hd Hk He.
  assert (Hpos : 0 < Zpos m0 * 2 ^ k) by (pose proof (pow2_pos k Hk); lia).
  destruct (Zpos m0 * 2 ^ k) as [|mm|mm] eqn:Hmm; [lia| |lia].
  pose proof (digits_scaled m0 k mm Hk (eq_sym Hmm)) as Hdm. rewrite Hd in Hdm.
  unfold binary_round_aux, shr_fexp. simpl Zdigits2.
  rewrite Hdm, fexp_normal by lia.
  replace (53 + k + e - 53 - e) with k by lia.
  change (shr_record_of_loc (Zpos mm) loc_Exact)
    with (Build_shr_record (Zpos mm) false false).
  rewrite <- Hmm, shr_exact by lia. simpl shr_m. simpl loc_of_shr_record.
  simpl round_nearest_even. simpl Zdigits2. rewrite Hd, fexp_normal by lia.
  replace (53 + (e + k) - 53 - (e + k)) with 0 by lia. simpl.
  destruct (Z.leb_spec (e + k) (Float64.emax - Float64.prec)) as [_|Hgt];
    [reflexivity|unfold Float64.emax, Float64.prec in Hgt; lia].
Qed.

Lemma round_nearest_even_range (r : shr_record) :
  shr_m r <= round_nearest_even (shr_m r) (loc_of_shr_record r) <= shr_m r + 1.
Proof.
  destruct r as [m [] []]; simpl; try lia. destruct (Z.even m); lia.
Qed.

(** The rounding of an integer mantissa of 53 bits or more: the result is
    normal, with the exponent of its leading bit or, when the rounding
    carries, the next power of two. *)
Lemma round_shape (m : positive) (e : Z) :
  53 <= Zpos (digits2_pos m) ->
  -1074 <= Zpos (digits2_pos m) + e - 53 <= 970 ->
  exists m' e',
    binary_round_aux Float64.prec Float64.emax false (Zpos m) e loc_Exact
    = S754_finite false m' e' /\
    2 ^ 52 <= Zpos m' < 2 ^ 53 /\
    (e' = Zpos (digits2_pos m) + e - 53 \/
     e' = Zpos (digits2_pos m) + e - 52 /\ Zpos m' = 2 ^ 52).
Proof.
  intros Hd He. pose proof (digits2_pos_bounds m) as [Hlo Hhi].
  set (d := Zpos (digits2_pos m)) in *.
  unfold binary_round_aux, shr_fexp. simpl Zdigits2. fold d.
  rewrite fexp_normal by lia.
  replace (d + e - 53 - e) with (d - 53) by lia.
  change (shr_record_of_loc (Zpos m) loc_Exact)
    with (Build_shr_record (Zpos m) false false).
  set (r0 := Build_shr_record (Zpos m) false false).
  assert (Hfirst : exists r1,
    shr r0 e (d - 53) = (r1, e + (d - 53)) /\ 2 ^ 52 <= shr_m r1 < 2 ^ 53).
  { destruct (d - 53) as [|p|p] eqn:Hn; [| |lia].
    - exists r0. split; [simpl; f_equal; lia|]. simpl.
      replace d with 53 in * by lia. simpl in Hlo. lia.
    - exists (SpecFloat.iter_pos shr_1 p r0). split; [reflexivity|].
      rewrite iter_pos_nat, shr_iter_m by (simpl; lia).
      rewrite positive_nat_Z. simpl shr_m.
      assert (Hp : 0 < 2 ^ Zpos p) by (apply pow2_pos; lia).
      replace (d - 1) with (52 + Zpos p) in Hlo by lia.
      replace d with (53 + Zpos p) in Hhi by lia.
      rewrite Z.pow_add_r in Hlo, Hhi by lia. split.
      + apply Z.div_le_lower_bound; lia.
      + apply Z.div_lt_upper_bound; lia. }
  destruct Hfirst as (r1 & -> & Hr1).
  pose proof (round_nearest_even_range r1) as Hrne.
  set (m1 := round_nearest_even (shr_m r1) (loc_of_shr_record r1)) in *.
  destruct m1 as [|p1|p1] eqn:Hm1; [lia| |lia].
  destruct (Z.eq_dec (Zpos p1) (2 ^ 53)) as [Hcarry|Hno].
  - assert (p1 = 9007199254740992%positive) as -> by lia.
    exists 4503599627370496%positive, (e + (d - 53) + 1). split; [|split].
    + change (Zdigits2 9007199254740992) with 54.
      rewrite fexp_normal by lia.
      replace (54 + (e + (d - 53)) - 53 - (e + (d - 53))) with 1 by lia.
      simpl.
      destruct (Z.leb_spec (e + (d - 53) + 1) (Float64.emax - Float64.prec)) as [_|Hgt];
        [reflexivity|unfold Float64.emax, Float64.prec in Hgt; lia].
    + simpl. lia.
    + right. split; [lia|reflexivity].
  - assert (Hd1 : Zpos (digits2_pos p1) = 53) by (apply digits2_pos_unique; simpl; lia).
    exists p1, (e + (d - 53)). split; [|split].
    + simpl Zdigits2. rewrite Hd1, fexp_normal by lia.
      replace (53 + (e + (d - 53)) - 53 - (e + (d - 53))) with 0 by lia. simpl.
      destruct (Z.leb_spec (e + (d - 53)) (Float64.emax - Float64.prec)) as [_|Hgt];
        [reflexivity|unfold Float64.emax, Float64.prec in Hgt; lia].
    + lia.
    + left. lia.
Qed.

(** Rounding a magnitude with a positive sign never gives a negative
    number. *)
Lemma binary_round_aux_not_negative (q e : Z) (l : location) :
  SFltb (binary_round_aux Float64.prec Float64.emax false q e l) (S754_zero false)
  = false.
Proof.
  unfold binary_round_aux.
  destruct (shr_fexp _ _ q e l) as [mrs' e'].
  destruct (shr_fexp _ _ _ e' loc_Exact) as [mrs'' e''].
  destruct (shr_m mrs''); [reflexivity| |reflexivity].
  now destruct (e'' <=? Float64.emax - Float64.prec).
Qed.

(** *** Conversions and operations *)

Lemma div_eucl_eq (a b : Z) : Z.div_eucl a b = (a / b, a mod b).
Proof. unfold Z.div, Z.modulo. now destruct (Z.div_eucl a b). Qed.

(** [float64(n)] for a positive [n] below [2^53] is exact: the mantissa is
    [n] shifted to 53 bits. *)
Lemma of_int_exact (p : positive) :
  Zpos p < 2 ^ 53 ->
  exists m e,
    Float64.of_int (Zpos p) = S754_finite false m e /\
    Zpos (digits2_pos m) = 53 /\ e = Zpos (digits2_pos p) - 53 /\
    Zpos m = Zpos p * 2 ^ (- e).
Proof.
  intros Hp. pose proof (digits2_pos_bounds p) as [Hlo Hhi].
  pose proof (digits_below p 53 ltac:(lia) Hp) as Hd.
  set (d := Zpos (digits2_pos p)) in *.
  unfold Float64.of_int, binary_normalize, binary_round, shl_align. fold d.
  rewrite fexp_normal by lia.
  destruct (d + 0 - 53 - 0) as [|q|q] eqn:Hq; [| lia |].
  - exists p, 0. replace (Zpos p) with (Zpos p * 2 ^ 0) at 1 by lia.
    rewrite round_exact by (subst d; lia).
    repeat split; try subst d; try lia. 
  - exists (Pos.iter xO p q), (d - 53).
    assert (Hm : Zpos (Pos.iter xO p q) = Zpos p * 2 ^ Zpos q) by apply iter_xO.
    assert (Hdm : Zpos (digits2_pos (Pos.iter xO p q)) = 53).
    { rewrite (digits_scaled p (Zpos q) _ ltac:(lia) Hm). fold d. lia. }
    replace (Zpos (Pos.iter xO p q)) with (Zpos (Pos.iter xO p q) * 2 ^ 0) at 1 by lia.
    rewrite round_exact by lia.
    repeat split; try lia.
    + f_equal; lia.
    + rewrite Hm. do 2 f_equal. lia.
Qed.

(** [float64(n)] for a positive [n] below [2^63] is a normal number whose
    exponent is that of the leading bit of [n], or one more when the
    rounding carries. *)
Lemma of_int_shape (p : positive) :
  Zpos p < 2 ^ 63 ->
  exists m e,
    Float64.of_int (Zpos p) = S754_finite false m e /\
    2 ^ 52 <= Zpos m < 2 ^ 53 /\
    (e = Zpos (digits2_pos p) - 53 \/
     e = Zpos (digits2_pos p) - 52 /\ Zpos m = 2 ^ 52).
Proof.
  intros Hp. destruct (Z_lt_le_dec (Zpos p) (2 ^ 53)) as [Hsmall|Hbig].
  - destruct (of_int_exact p Hsmall) as (m & e & Hf & Hdm & He & _).
    exists m, e. pose proof (digits2_pos_bounds m) as Hb. rewrite Hdm in Hb.
    repeat split; try tauto; try (simpl in Hb; lia).
  - pose proof (digits_above p 53 ltac:(lia) Hbig) as Hlo.
    pose proof (digits_below p 63 ltac:(lia) Hp) as Hhi.
    destruct (round_shape p 0) as (m & e & Hf & Hm & He); [lia|lia|].
    exists m, e. repeat split; try tauto; try lia.
    unfold Float64.of_int, binary_normalize, binary_round, shl_align.
    rewrite fexp_normal by lia.
    destruct (Zpos (digits2_pos p) + 0 - 53 - 0) eqn:Hq; try lia; exact Hf.
Qed.

(** The nearest binary64 of an integer below [2^53] is that of
    [float64(n)]. *)
Lemma of_ratio_int (p : positive) :
  Zpos p < 2 ^ 53 -> Float64.of_ratio p 1 = Float64.of_int (Zpos p).
Proof.
  intros Hp. destruct (of_int_exact p Hp) as (m & e & -> & Hdm & He & Hm).
  pose proof (digits2_pos_bounds p) as [Hlo Hhi].
  pose proof (digits_below p 53 ltac:(lia) Hp) as Hd.
  set (d := Zpos (digits2_pos p)) in *.
  unfold Float64.of_ratio, SFdiv_core_binary. simpl Zdigits2. fold d.
  rewrite fexp_normal by lia.
  replace (Z.min (d + 0 - (1 + 0) - 53) (0 - 0)) with (d - 54) by lia.
  replace (0 - 0 - (d - 54)) with (54 - d) by lia.
  destruct (54 - d) as [|s|s] eqn:Hs; [lia| |lia].
  rewrite div_eucl_eq, Z.div_1_r, Z.mod_1_r. simpl new_location.
  rewrite Z.shiftl_mul_pow2 by lia.
  replace (Zpos p * 2 ^ Zpos s) with (Zpos m * 2 ^ 1).
  - rewrite round_exact by lia. f_equal. lia.
  - rewrite Hm. replace (Zpos s) with (- e + 1) by lia.
    rewrite Z.pow_add_r by lia. lia.
Qed.

Lemma of_ratio_not_negative (n d : positive) :
  Float64.ltb (Float64.of_ratio n d) Float64.zero = false.
Proof.
  unfold Float64.of_ratio.
  destruct (SFdiv_core_binary _ _ _ _ _ _) as [[q e] l].
  apply binary_round_aux_not_negative.
Qed.

(** Division of a normal number by a power of two is exact. *)
Lemma div_pow2 (m : positive) (e e2 : Z) :
  2 ^ 52 <= Zpos m < 2 ^ 53 -> -1074 <= e - e2 - 53 -> e - e2 - 52 <= 971 ->
  Float64.div (S754_finite false m e) (S754_finite false 4503599627370496 e2)
  = S754_finite false m (e - e2 - 52).
Proof.
  intros Hm Hlo Hhi.
  assert (Hd : Zpos (digits2_pos m) = 53) by (apply digits2_pos_unique; simpl; lia).
  unfold Float64.div, SFdiv, SFdiv_core_binary.
  change (Zdigits2 4503599627370496) with 53.
  change (Zdigits2 (Zpos m)) with (Zpos (digits2_pos m)). rewrite Hd.
  rewrite fexp_normal by lia.
  replace (Z.min (53 + e - (53 + e2) - 53) (e - e2)) with (e - e2 - 53) by lia.
  replace (e - e2 - (e - e2 - 53)) with 53 by lia. cbv iota.
  rewrite div_eucl_eq, Z.shiftl_mul_pow2 by lia.
  replace (Zpos m * 2 ^ 53 / 4503599627370496) with (Zpos m * 2 ^ 1)
    by (apply Z.div_unique with 0; lia).
  replace ((Zpos m * 2 ^ 53) mod 4503599627370496) with 0
    by (apply Z.mod_unique with (2 * Zpos m); lia).
  change (new_location 4503599627370496 0) with loc_Exact.
  simpl xorb. rewrite round_exact by lia. f_equal. lia.
Qed.

(** Multiplication of a normal number by a power of two is exact. *)
Lemma mul_pow2 (m : positive) (e e2 : Z) :
  2 ^ 52 <= Zpos m < 2 ^ 53 -> -1074 <= e + e2 + 52 <= 971 ->
  Float64.mul (S754_finite false m e) (S754_finite false 4503599627370496 e2)
  = S754_finite false m (e + e2 + 52).
Proof.
  intros Hm He.
  assert (Hd : Zpos (digits2_pos m) = 53) by (apply digits2_pos_unique; simpl; lia).
  unfold Float64.mul, SFmul. simpl xorb.
  replace (Zpos (m * 4503599627370496)) with (Zpos m * 2 ^ 52) by lia.
  now rewrite round_exact by lia.
Qed.

Lemma of_int_100 : Float64.of_int 100 = S754_finite false 7036874417766400 (-46).
Proof. reflexivity. Qed.

Lemma of_int_10 : Float64.of_int 10 = S754_finite false 5629499534213120 (-49).
Proof. reflexivity. Qed.

Lemma of_int_max_int64 :
  Float64.of_int max_int64 = S754_finite false 4503599627370496 11.
Proof. reflexivity. Qed.

(** *** Comparisons of positive normal numbers *)

Lemma ltb_negb_geb (m mc : positive) (e ec : Z) :
  Float64.ltb (S754_finite false m e) (S754_finite false mc ec)
  = negb (Float64.geb (S754_finite false m e) (S754_finite false mc ec)).
Proof.
  unfold Float64.ltb, Float64.geb, SFltb, SFleb, SFcompare.
  rewrite (Z.compare_antisym e ec).
  destruct (e ?= ec); simpl; try reflexivity.
  change (Pos.compare_cont Eq mc m) with (Pos.compare mc m).
  change (Pos.compare_cont Eq m mc) with (Pos.compare m mc).
  rewrite (Pos.compare_antisym m mc). now destruct (Pos.compare m mc).
Qed.

Lemma geb_false (m mc : positive) (e ec : Z) :
  Float64.geb (S754_finite false m e) (S754_finite false mc ec) = false ->
  e < ec \/ e = ec /\ Zpos m < Zpos mc.
Proof.
  unfold Float64.geb, SFleb, SFcompare.
  destruct (Z.compare_spec ec e) as [->|Hlt|Hgt]; [|discriminate|lia].
  change (Pos.compare_cont Eq mc m) with (Pos.compare mc m).
  destruct (Pos.compare_spec mc m); try discriminate. lia.
Qed.

Lemma geb_100_10 (m : positive) (e : Z) :
  Float64.geb (S754_finite false m e) (S754_finite false 7036874417766400 (-46)) = true ->
  Float64.geb (S754_finite false m e) (S754_finite false 5629499534213120 (-49)) = true.
Proof.
  unfold Float64.geb, SFleb, SFcompare.
  destruct (Z.compare_spec (-46) e); destruct (Z.compare_spec (-49) e);
    try lia; try discriminate; reflexivity.
Qed.

(** *** Conversion to [int64] *)

(** Converting an integral value in range gives that integer. *)
Lemma to_int64_exact (m : positive) (e b : Z) :
  e <= 0 -> Zpos m = b * 2 ^ (- e) -> 0 <= b < 2 ^ 63 ->
  Float64.to_int64 (S754_finite false m e) = b.
Proof.
  intros He Hm Hb. unfold Float64.to_int64, Float64.trunc, cond_Zopp.
  rewrite Z.shiftl_div_pow2, Hm, Z.div_mul by (try apply Z.pow_nonzero; lia).
  unfold in_int64.
  destruct (Z.leb_spec (- 2 ^ 63) b); [|lia].
  destruct (Z.ltb_spec b (2 ^ 63)); [reflexivity|lia].
Qed.

Lemma to_int64_range (f : float64) : is_int64 (Float64.to_int64 f).
Proof.
  unfold Float64.to_int64, Float64.int64_indefinite, is_int64.
  destruct (Float64.trunc f) as [z|]; [|lia].
  unfold in_int64.
  destruct (Z.leb_spec (- 2 ^ 63) z); destruct (Z.ltb_spec z (2 ^ 63)); simpl; lia.
Qed.

(* ================================================================= *)
(** ** Numerals *)

Lemma string_of_uint_digits (d : Decimal.uint) :
  all_chars regexp.isDigit (NilEmpty.string_of_uint d) = true.
Proof. induction d; simpl; auto. Qed.

Lemma string_of_uint_cons (d : Decimal.uint) :
  d <> Decimal.Nil -> exists c r, NilEmpty.string_of_uint d = String c r.
Proof. destruct d; simpl; eauto. congruence. Qed.

Lemma Itoa_pos (p : positive) :
  strconv.Itoa (Zpos p) = NilEmpty.string_of_uint (Pos.to_uint p).
Proof.
  unfold strconv.Itoa. simpl. pose proof (DecimalPos.Unsigned.to_uint_nonnil p).
  now destruct (Pos.to_uint p).
Qed.

Lemma Itoa_pos_digits (p : positive) :
  exists c r, strconv.Itoa (Zpos p) = String c r /\
              all_chars regexp.isDigit (String c r) = true.
Proof.
  rewrite Itoa_pos.
  destruct (string_of_uint_cons _ (DecimalPos.Unsigned.to_uint_nonnil p))
    as (c & r & Hcr).
  exists c, r. split; [assumption|]. rewrite <- Hcr. apply string_of_uint_digits.
Qed.

Lemma cut_point_digits (s : string) :
  all_chars regexp.isDigit s = true -> strconv.cut_point s = (s, None).
Proof.
  induction s as [|c s IH]; simpl; [reflexivity|].
  rewrite andb_true_iff. intros [Hc Hs].
  now rewrite (isDigit_not_point c Hc), (IH Hs).
Qed.

Lemma read_decimal_Itoa (p : positive) :
  strconv.read_decimal (strconv.Itoa (Zpos p)) = Some (Zpos p, O).
Proof.
  rewrite Itoa_pos. unfold strconv.read_decimal.
  rewrite (cut_point_digits _ (string_of_uint_digits _)).
  unfold strconv.digits_of_string.
  destruct (string_of_uint_cons (Pos.to_uint p)
              (DecimalPos.Unsigned.to_uint_nonnil p)) as (c & r & Hcr).
  rewrite Hcr, <- Hcr, NilEmpty.usu.
  unfold Z.of_uint. now rewrite DecimalPos.Unsigned.of_to.
Qed.

(** A numeral is left as it is by [strings.TrimSpace]. *)
Lemma TrimSpace_digits c (r : string) :
  all_chars regexp.isDigit (String c r) = true ->
  strings.TrimSpace (String c r) = String c r.
Proof.
  intros H. pose proof H as Hrev. rewrite <- all_chars_rev in Hrev.
  destruct (String.rev (String c r)) as [|c' t] eqn:Hr.
  - rewrite rev_cons in Hr. now destruct (String.rev r).
  - simpl in H, Hrev. apply andb_true_iff in H as [Hc _].
    apply andb_true_iff in Hrev as [Hc' _].
    apply (TrimSpace_solid c r c' t); auto with chars.
Qed.

Lemma uint_of_char_digit c (d : Decimal.uint) :
  regexp.isDigit c = true -> exists d', uint_of_char c (Some d) = Some d'.
Proof.
  destruct c as [[] [] [] [] [] [] [] []]; vm_compute; try congruence; eauto.
Qed.

Lemma uint_of_string_digits (s : string) :
  all_chars regexp.isDigit s = true ->
  exists d, NilEmpty.uint_of_string s = Some d.
Proof.
  induction s as [|c s IH]; simpl; [eauto|].
  rewrite andb_true_iff. intros [Hc Hs].
  destruct (IH Hs) as [d ->]. now apply uint_of_char_digit.
Qed.

Lemma digits_of_string_digits (s : string) :
  s <> "" -> all_chars regexp.isDigit s = true ->
  exists d, strconv.digits_of_string s = Some d.
Proof.
  intros Hne Hs. destruct s as [|c r]; [contradiction|].
  apply (uint_of_string_digits _ Hs).
Qed.

Lemma cut_point_app (ds fs : string) :
  all_chars regexp.isDigit ds = true ->
  strconv.cut_point (ds ++ String "." fs) = (ds, Some fs).
Proof.
  induction ds as [|c ds IH]; [reflexivity|]. rewrite app_cons. simpl.
  rewrite andb_true_iff. intros [Hc Hds].
  now rewrite (isDigit_not_point c Hc), (IH Hds).
Qed.

(** The number of a match is in the domain of the model of
    [strconv.ParseFloat]: it is read as a non-negative decimal. *)
Lemma read_decimal_is_decimal (s : string) :
  is_decimal s -> exists n k, strconv.read_decimal s = Some (n, k) /\ 0 <= n.
Proof.
  intros (ds & Hne & Hds & Hshape). unfold strconv.read_decimal.
  destruct (digits_of_string_digits ds Hne Hds) as [d1 H1].
  destruct Hshape as [->|(fs & Hfne & Hfs & ->)].
  - rewrite (cut_point_digits ds Hds), H1. eexists _, _. split; [reflexivity|].
    unfold Z.of_uint. lia.
  - destruct (digits_of_string_digits fs Hfne Hfs) as [d2 H2].
    rewrite (cut_point_app ds fs Hds), H1, H2. eexists _, _.
    split; [reflexivity|]. unfold Z.of_uint. lia.
Qed.

(** So [ParseSize] never meets the syntax error of [strconv.ParseFloat]. *)
Lemma ParseFloat_match (t : string) (l : list string) :
  regexp.FindStringSubmatch t = Some l ->
  snd (strconv.ParseFloat (nth 1 l "")) <> Some strconv.ErrSyntax.
Proof.
  intros Hm.
  destruct (FindStringSubmatch_spec t l Hm) as (number & ws & letters & -> & _ & Hn & _).
  destruct (read_decimal_is_decimal number Hn) as (n & k & Hr & _).
  simpl nth. unfold strconv.ParseFloat. rewrite Hr.
  destruct n; [discriminate| |discriminate].
  now destruct (Float64.of_ratio _ _).
Qed.

(** The number of a match is not parsed to a negative number. *)
Lemma ParseFloat_decimal_not_negative (s : string) :
  is_decimal s ->
  Float64.ltb (fst (strconv.ParseFloat s)) Float64.zero = false.
Proof.
  intros Hs. destruct (read_decimal_is_decimal s Hs) as (n & k & Hr & Hn).
  unfold strconv.ParseFloat. rewrite Hr.
  destruct n as [|n|n]; [reflexivity| |lia].
  pose proof (of_ratio_not_negative n (Z.to_pos (10 ^ Z.of_nat k))) as H.
  now destruct (Float64.of_ratio n _).
Qed.

(** The numeral of an integer below [2^53] is parsed to that integer. *)
Lemma ParseFloat_Itoa (p : positive) :
  Zpos p < 2 ^ 53 ->
  strconv.ParseFloat (strconv.Itoa (Zpos p)) = (Float64.of_int (Zpos p), None).
Proof.
  intros Hp. unfold strconv.ParseFloat. rewrite read_decimal_Itoa.
  change (Z.to_pos (10 ^ Z.of_nat 0)) with 1%positive.
  rewrite (of_ratio_int p Hp).
  now destruct (of_int_exact p Hp) as (m & e & -> & _).
Qed.

(* ================================================================= *)
(** ** The verbs of [fmt] *)

Lemma round_half_even_bounds (num den B : Z) :
  0 < den -> 0 <= num <= B * den ->
  0 <= fmt.round_half_even num den <= B.
Proof.
  intros Hden Hnum. unfold fmt.round_half_even.
  pose proof (Z.div_mod num den ltac:(lia)) as Hdm.
  pose proof (Z.mod_pos_bound num den Hden) as Hr.
  assert (Hq : 0 <= num / den) by (apply Z.div_pos; lia).
  set (q := num / den) in *. set (r := num mod den) in *.
  assert (HqB : q <= B) by nia.
  destruct (Z.compare_spec (2 * r) den) as [Heq|Hlt|Hgt]; [|lia|].
  - assert (q < B) by nia. destruct (Z.even q); lia.
  - assert (q < B) by nia. lia.
Qed.

Lemma Sprintf_f_finite (p : nat) (m : positive) (e : Z) :
  e < 0 ->
  fmt.Sprintf_f p (S754_finite false m e)
  = fmt.fixed p (fmt.round_half_even (Zpos m * 10 ^ Z.of_nat p) (2 ^ (- e))).
Proof.
  intros He. unfold fmt.Sprintf_f.
  destruct (Z.leb_spec 0 e); [lia|]. apply app_empty_l.
Qed.

Lemma fixed_whole (scaled : Z) : fmt.fixed 0 scaled = strconv.Itoa scaled.
Proof. unfold fmt.fixed. simpl. now rewrite Z.div_1_r, app_empty_r. Qed.

(* ================================================================= *)
(** ** [ParseSize] *)

(** An input whose first character is the sign fails the pattern. *)
Lemma ParseSize_minus (s : string) :
  ParseSize (String "-" s) =
    (0, Some (InvalidFormat (strings.TrimSpace (String "-" s)))).
Proof.
  unfold ParseSize.
  destruct (TrimSpace_keeps_first "-" s eq_refl) as [r ->].
  simpl String.eqb. cbv iota.
  now rewrite (FindStringSubmatch_no_digit "-" r eq_refl).
Qed.

Lemma ParseSize_match (s t number letters : string) :
  strings.TrimSpace s = t ->
  regexp.FindStringSubmatch t = Some [t; number; letters] ->
  ParseSize s = convert number (strings.ToLower letters) t.
Proof.
  intros Ht Hm. unfold ParseSize. rewrite Ht, Hm.
  destruct t as [|c r]; [discriminate|]. reflexivity.
Qed.


(** The result of [ParseSize] on a number, white space and letters, with
    white space around. *)
Lemma ParseSize_shape (pre number ws letters post : string) :
  blank pre -> blank post -> is_decimal number ->
  all_chars regexp.isSpace ws = true ->
  all_chars regexp.isLetter letters = true ->
  ParseSize (pre ++ number ++ ws ++ letters ++ post)
  = convert number (strings.ToLower letters)
      match letters with
      | EmptyString => number
      | _ => number ++ ws ++ letters
      end.
Proof.
  intros Hpre Hpost Hnum Hws Hletters.
  destruct (is_decimal_ends number Hnum) as (c & r & c' & t & En & Hc & Hrev & Hc').
  destruct letters as [|l ls].
  - apply ParseSize_match.
    + rewrite app_empty_l, En.
      apply (TrimSpace_around pre (ws ++ post) c r c' t); auto.
      * apply blank_app; auto using blank_spaces.
      * now rewrite <- En.
    + pose proof (FindStringSubmatch_complete number "" "" Hnum eq_refl eq_refl) as H.
      now rewrite !app_empty_r in H.
  - apply ParseSize_match.
    + destruct (all_chars_ends _ (String l ls) ltac:(discriminate) Hletters)
        as (_ & _ & l' & lt & _ & _ & Hlrev & Hl').
      assert (Ecore : number ++ ws ++ String l ls = String c (r ++ ws ++ String l ls))
        by (now rewrite En).
      assert (Eall : pre ++ number ++ ws ++ String l ls ++ post
                     = pre ++ String c (r ++ ws ++ String l ls) ++ post)
        by (now rewrite <- Ecore, !app_assoc_str).
      rewrite Eall, Ecore.
      apply (TrimSpace_around pre post c _ l'
               (lt ++ String.rev ws ++ String.rev number));
        auto using isLetter_solid.
      now rewrite <- Ecore, !rev_append, Hlrev, app_assoc_str, app_cons.
    + now apply FindStringSubmatch_complete.
Qed.

(** The result for a number with a unit of the table: the product, unless
    it compares above [float64(max_int64)], which is [2^63]. *)
Lemma ParseSize_with_unit (number ws letters : string) (f : float64) (m : Z) :
  is_decimal number ->
  all_chars regexp.isSpace ws = true ->
  all_chars regexp.isLetter letters = true ->
  strconv.ParseFloat number = (f, None) ->
  unitMap !! strings.ToLower letters = Some m ->
  ParseSize (number ++ ws ++ letters)
  = let product := Float64.mul f (Float64.of_int m) in
    if Float64.gtb product (S754_finite false 4503599627370496 11)
    then (0, Some (Overflow (number ++ ws ++ letters)))
    else (Float64.to_int64 product, None).
Proof.
  intros Hnumber Hws Hletters Hf Hm.
  pose proof (ParseSize_shape "" number ws letters ""
                blank_nil blank_nil Hnumber Hws Hletters) as H.
  rewrite app_empty_l, app_empty_r in H. rewrite H. unfold convert.
  rewrite Hf, Hm, of_int_max_int64.
  pose proof (ParseFloat_decimal_not_negative number Hnumber) as Hsign.
  rewrite Hf in Hsign. simpl in Hsign. rewrite Hsign.
  destruct letters as [|l ls]; [discriminate Hm|]. reflexivity.
Qed.

(** The value [ParseSize] returns is an [int64]. *)
Lemma ParseSize_int64 (s : string) : is_int64 (fst (ParseSize s)).
Proof.
  assert (H0 : is_int64 0) by (unfold is_int64; lia).
  unfold ParseSize.
  destruct (String.eqb _ ""); [exact H0|].
  destruct (regexp.FindStringSubmatch _) as [matches|]; [|exact H0].
  destruct (strconv.ParseFloat _) as [number [err|]]; [exact H0|].
  destruct (Float64.ltb _ _); [exact H0|].
  destruct (String.eqb _ ""); [apply to_int64_range|].
  destruct (unitMap !! _); [|exact H0].
  destruct (Float64.gtb _ _); [exact H0|apply to_int64_range].
Qed.

(* ================================================================= *)
(** ** [FormatSize] *)

Lemma units_pow2 (u : formatUnit) :
  In u units ->
  exists j, 1 <= j <= 5 /\ multiplier u = 2 ^ (10 * j) /\
    Float64.of_int (multiplier u)
      = S754_finite false 4503599627370496 (10 * j - 52).
Proof.
  simpl. intros [<-|[<-|[<-|[<-|[<-|[]]]]]].
  - exists 5. split; [lia|]. split; vm_compute; reflexivity.
  - exists 4. split; [lia|]. split; vm_compute; reflexivity.
  - exists 3. split; [lia|]. split; vm_compute; reflexivity.
  - exists 2. split; [lia|]. split; vm_compute; reflexivity.
  - exists 1. split; [lia|]. split; vm_compute; reflexivity.
Qed.

Lemma units_sizes :
  PiB = 2 ^ 50 /\ TiB = 2 ^ 40 /\ GiB = 2 ^ 30 /\ MiB = 2 ^ 20 /\ KiB = 2 ^ 10.
Proof. repeat split. Qed.

(** The units of [FormatSize] are in the unit table, by their names in
    lower case. *)
Lemma units_in_unitMap (u : formatUnit) :
  In u units ->
  all_chars regexp.isLetter (name u) = true /\
  (exists t, String.rev (name u) = String "B" t) /\
  String.eqb (strings.ToLower (name u)) "" = false /\
  unitMap !! strings.ToLower (name u) = Some (multiplier u).
Proof.
  simpl. intros [<-|[<-|[<-|[<-|[<-|[]]]]]];
    (split; [reflexivity|]; split; [eexists; reflexivity|]; split;
     vm_compute; reflexivity).
Qed.

(** The unit [FormatSize] picks for a byte count: the largest that the
    count reaches, which it exceeds by a factor below [2^13]. *)
Lemma format_loop_select (b : Z) :
  1024 <= b < 2 ^ 63 ->
  exists u,
    In u units /\ format_loop b units = Some (format_in b u) /\
    multiplier u <= b < 2 ^ 13 * multiplier u /\
    (forall u', In u' units -> multiplier u' <= b -> multiplier u' <= multiplier u).
Proof.
  intros Hb. destruct units_sizes as (HP & HT & HG & HM & HK).
  unfold units. cbn [format_loop multiplier In].
  destruct (Z.leb_spec PiB b) as [H5|H5];
    [|destruct (Z.leb_spec TiB b) as [H4|H4];
      [|destruct (Z.leb_spec GiB b) as [H3|H3];
        [|destruct (Z.leb_spec MiB b) as [H2|H2];
          [|destruct (Z.leb_spec KiB b) as [H1|H1]; [|lia]]]]].
  all: eexists; split; [|split; [reflexivity|]]; [tauto|].
  all: cbn [multiplier]; split; [lia|].
  all: intros u' [<-|[<-|[<-|[<-|[<-|[]]]]]] Hle; cbn [multiplier] in *; lia.
Qed.

(** The output for a byte count [b] in the unit [u] that [FormatSize]
    picks for it. *)
Section ChosenUnit.

Variable b : Z.
Variable u : formatUnit.
Hypothesis Hin : In u units.
Hypothesis Hrange : multiplier u <= b < 2 ^ 13 * multiplier u.

(** The value shown is a normal number between 1 and 8192. *)
Lemma unit_value_shape :
  exists m e,
    unit_value b u = S754_finite false m e /\
    2 ^ 52 <= Zpos m < 2 ^ 53 /\
    (-52 <= e <= -40 \/ e = -39 /\ Zpos m = 2 ^ 52).
Proof using Hin Hrange.
  destruct Hrange as [Hlo Hhi].
  destruct (units_pow2 u Hin) as (j & Hj & Hmul & Hu).
  rewrite Hmul in Hlo, Hhi. rewrite <- Z.pow_add_r in Hhi by lia.
  assert (0 < 2 ^ (10 * j)) by (apply pow2_pos; lia).
  destruct b as [|p|p]; [lia| |lia].
  assert (Hhi' : Zpos p < 2 ^ 63).
  { apply Z.lt_le_trans with (1 := Hhi). apply Z.pow_le_mono_r; lia. }
  destruct (of_int_shape p Hhi') as (m & e & Hf & Hm & He).
  pose proof (digits_above p (10 * j) ltac:(lia) Hlo) as Hd1.
  pose proof (digits_below p (13 + 10 * j) ltac:(lia) Hhi) as Hd2.
  exists m, (e - (10 * j - 52) - 52).
  unfold unit_value. rewrite Hf, Hu, div_pow2 by lia.
  repeat split; try lia.
Qed.

(** The number printed has at most four digits before the point: it is at
    most 8192 without decimals, and at most 100 with decimals. *)
Lemma format_in_cases :
  exists p scaled,
    format_in b u = fmt.fixed p scaled ++ " " ++ name u /\
    (p = 0%nat /\ 0 <= scaled <= 8192 \/
     (p = 1%nat \/ p = 2%nat) /\ 0 <= scaled <= 1000).
Proof using Hin Hrange.
  destruct unit_value_shape as (m & e & Hv & Hm & He).
  unfold format_in. rewrite Hv, of_int_100, of_int_10.
  assert (Hcases : e = -52 \/ e = -51 \/ e = -50 \/ e = -49 \/ e = -48 \/
                   e = -47 \/ e = -46 \/ e = -45 \/ e = -44 \/ e = -43 \/
                   e = -42 \/ e = -41 \/ e = -40 \/ e = -39) by lia.
  destruct (Float64.geb _ (S754_finite false 7036874417766400 (-46))) eqn:H100;
    [|apply geb_false in H100;
      destruct (Float64.geb _ (S754_finite false 5629499534213120 (-49))) eqn:H10;
      [|apply geb_false in H10]].
  all: rewrite Sprintf_f_finite by lia.
  all: eexists _, _; split; [reflexivity|].
  - left. split; [reflexivity|].
    repeat (destruct Hcases as [->|Hcases]); try subst e;
      apply round_half_even_bounds; simpl; lia.
  - right. split; [now left|].
    repeat (destruct Hcases as [->|Hcases]); try subst e;
      apply round_half_even_bounds; simpl; lia.
  - right. split; [now right|].
    repeat (destruct Hcases as [->|Hcases]); try subst e;
      apply round_half_even_bounds; simpl; lia.
Qed.

End ChosenUnit.

(* ================================================================= *)
(** ** [FormatSize] then [ParseSize] *)

(** A whole number of units up to [2^63] bytes is accepted. *)
Lemma ParseSize_whole_units (n : Z) (u : formatUnit) :
  0 <= n <= 8192 -> In u units ->
  snd (ParseSize (strconv.Itoa n ++ " " ++ name u)) = None.
Proof.
  intros Hn Hu. destruct n as [|p|p]; [| |lia].
  { revert Hu. simpl. intros [<-|[<-|[<-|[<-|[<-|[]]]]]]; vm_compute; reflexivity. }
  destruct (units_in_unitMap u Hu) as (Hletters & (t & Hrev) & Hne & Hlook).
  destruct (units_pow2 u Hu) as (j & Hj & _ & Hconv).
  destruct (Itoa_pos_digits p) as (c & r & Hs & Hdigits).
  assert (Hparse := ParseFloat_Itoa p ltac:(lia)).
  assert (Hdec : is_decimal (strconv.Itoa (Zpos p))).
  { exists (strconv.Itoa (Zpos p)). rewrite Hs.
    repeat split; [discriminate|assumption|now left]. }
  pose proof (FindStringSubmatch_complete _ " " (name u) Hdec eq_refl Hletters)
    as Hmatch.
  unfold ParseSize.
  assert (Htrim : strings.TrimSpace (strconv.Itoa (Zpos p) ++ " " ++ name u)
                  = strconv.Itoa (Zpos p) ++ " " ++ name u).
  { rewrite Hs, app_cons.
    apply (TrimSpace_solid c _ "B" (t ++ " " ++ String.rev (String c r))).
    - simpl in Hdigits. apply andb_true_iff in Hdigits as [Hc _].
      now apply isDigit_solid.
    - reflexivity.
    - rewrite <- app_cons, !rev_append, Hrev, app_assoc_str. reflexivity. }
  rewrite Htrim, Hmatch. cbn [nth]. rewrite Hparse.
  assert (Hnonempty : String.eqb (strconv.Itoa (Zpos p) ++ " " ++ name u) "" = false).
  { now rewrite Hs, app_cons. }
  rewrite Hnonempty, Hne, Hlook, Hconv, of_int_max_int64.
  destruct (of_int_exact p ltac:(lia)) as (m & e & -> & Hdm & He & Hm).
  pose proof (digits2_pos_bounds m) as Hmb. rewrite Hdm in Hmb.
  pose proof (digits_below p 14 ltac:(lia) ltac:(lia)) as Hd.
  cbn [Float64.ltb SFltb SFcompare Float64.zero].
  rewrite mul_pow2 by (simpl in Hmb; lia).
  assert (Hgt : Float64.gtb (S754_finite false m (e + (10 * j - 52) + 52))
                  (S754_finite false 4503599627370496 11) = false).
  { unfold Float64.gtb, SFltb, SFcompare.
    destruct (Z.compare_spec 11 (e + (10 * j - 52) + 52)) as [Heq|Hlt|Hgt];
      [|lia|reflexivity].
    assert (Hp : 2 ^ 13 <= Zpos p).
    { pose proof (digits2_pos_bounds p) as [Hlo _].
      replace (Zpos (digits2_pos p) - 1) with 13 in Hlo by lia. exact Hlo. }
    assert (Hpe : Zpos p = 8192) by lia.
    assert (Hme : Zpos m = 4503599627370496).
    { rewrite Hm, Hpe. replace (- e) with 39 by lia. reflexivity. }
    injection Hme as ->. reflexivity. }
  now rewrite Hgt.
Qed.

Lemma accepted_range_spec (p : nat) (hi : Z) (u : formatUnit) (scaled : Z) :
  accepted_range p hi u = true -> 0 <= scaled <= hi ->
  accepted (fmt.fixed p scaled ++ " " ++ name u) = true.
Proof.
  unfold accepted_range. rewrite forallb_forall. intros Hall Hs.
  specialize (Hall (Z.to_nat scaled)). rewrite Z2Nat.id in Hall by lia.
  apply Hall, in_seq. lia.
Qed.

Lemma accepted_outputs_true : accepted_outputs = true.
Proof. vm_compute. reflexivity. Qed.

Lemma accepted_bytes_true : accepted_bytes = true.
Proof. vm_compute. reflexivity. Qed.

(* ================================================================= *)
(** * The specification, claim by claim *)

(** C1 fails on the code.  The result of [ParseSize] is always an
    [int64], but a number without unit is converted with no check of its
    range: the numeral of [2^63] is parsed to the number [2^63], which no
    [int64] holds, and [ParseSize] returns the converted value and no
    error; with the conversion of amd64 the result is negative. *)
Theorem ParseSize_plain_number_unchecked :
  (forall s, is_int64 (fst (ParseSize s))) /\
  Float64.trunc (fst (strconv.ParseFloat "9223372036854775808")) = Some (2 ^ 63) /\
  ~ is_int64 (2 ^ 63) /\
  ParseSize "9223372036854775808" = (-9223372036854775808, None).
Proof.
  split; [exact ParseSize_int64|].
  split; [vm_compute; reflexivity|]. split; [unfold is_int64; lia|].
  vm_compute. reflexivity.
Qed.

(** C2 fails on the code.  The pattern admits no sign, so an input whose
    number begins with a minus sign, with or without white space before
    it, is rejected with the invalid-format error before any number is
    parsed: [ParseSize] never gets to the check of the sign, which was
    written to give the negative-size error.  So it is with "-1" and
    "-1k". *)
Theorem ParseSize_negative_InvalidFormat (pre s : string) (Hpre : blank pre) :
  ParseSize (pre ++ String "-" s)
  = (0, Some (InvalidFormat (strings.TrimSpace (String "-" s)))) /\
  (forall f, snd (ParseSize (pre ++ String "-" s)) <> Some (NegativeSize f)) /\
  ParseSize "-1" = (0, Some (InvalidFormat "-1")) /\
  ParseSize "-1k" = (0, Some (InvalidFormat "-1k")).
Proof.
  assert (H : ParseSize (pre ++ String "-" s)
              = (0, Some (InvalidFormat (strings.TrimSpace (String "-" s))))).
  { rewrite <- ParseSize_minus. unfold ParseSize.
    now rewrite TrimSpace_blank_app. }
  split; [exact H|]. split; [|split; reflexivity].
  intros f. rewrite H. discriminate.
Qed.

Lemma ParseSize_negative_InvalidFormat_witness :
  blank " " /\
  (ParseSize (" " ++ String "-" "1k")
   = (0, Some (InvalidFormat (strings.TrimSpace (String "-" "1k")))) /\
   (forall f, snd (ParseSize (" " ++ String "-" "1k")) <> Some (NegativeSize f)) /\
   ParseSize "-1" = (0, Some (InvalidFormat "-1")) /\
   ParseSize "-1k" = (0, Some (InvalidFormat "-1k"))).
Proof.
  assert (H : blank " ") by (apply blank_ascii; [reflexivity|apply blank_nil]).
  split; [exact H|]. apply (ParseSize_negative_InvalidFormat " " "1k" H).
Defined.

(** C3 fails on the code: the product of 8192 and the multiplier of PiB is
    [2^63], which exceeds [max_int64]; the comparison is with
    [float64(max_int64)], which is [2^63] too, so no overflow is reported
    and the product is converted out of the range of [int64]. *)
Theorem ParseSize_overflow_boundary :
  let product :=
    Float64.mul (fst (strconv.ParseFloat "8192")) (Float64.of_int PiB) in
  unitMap !! "pib" = Some PiB /\
  Float64.trunc product = Some (2 ^ 63) /\
  max_int64 = 2 ^ 63 - 1 /\
  Float64.of_int max_int64 = product /\
  ParseSize "8192PiB" = (-9223372036854775808, None).
Proof. vm_compute. repeat split; reflexivity. Qed.



(** C5: [FormatSize] is total on [int64]: a negative count is shown as
    "0 B", a count below 1024 as its numeral and the unit B, and otherwise
    the largest binary unit that the count reaches is chosen, and the value
    in that unit is shown without decimals when it is at least 100, with
    one when it is at least 10 and below 100, and with two when it is below
    10. *)
Theorem FormatSize_spec (b : Z) (Hb : is_int64 b) :
  (b < 0 -> FormatSize b = "0 B") /\
  (0 <= b < 1024 -> FormatSize b = strconv.Itoa b ++ " B") /\
  (1024 <= b ->
   exists u,
     In u units /\ multiplier u <= b /\
     (forall u', In u' units -> multiplier u' <= b -> multiplier u' <= multiplier u) /\
     let value := unit_value b u in
     (Float64.geb value (Float64.of_int 100) = true ->
      FormatSize b = fmt.Sprintf_f 0 value ++ " " ++ name u) /\
     (Float64.geb value (Float64.of_int 10) = true ->
      Float64.ltb value (Float64.of_int 100) = true ->
      FormatSize b = fmt.Sprintf_f 1 value ++ " " ++ name u) /\
     (Float64.ltb value (Float64.of_int 10) = true ->
      FormatSize b = fmt.Sprintf_f 2 value ++ " " ++ name u) /\
     (Float64.geb value (Float64.of_int 100) = true \/
      Float64.geb value (Float64.of_int 10) = true /\
      Float64.ltb value (Float64.of_int 100) = true \/
      Float64.ltb value (Float64.of_int 10) = true)) /\
  FormatSize 0 = "0 B" /\
  FormatSize (-1) = "0 B" /\
  FormatSize 1023 = "1023 B" /\
  FormatSize 1024 = "1.00 KiB" /\
  FormatSize 1536 = "1.50 KiB" /\
  FormatSize 10240 = "10.0 KiB" /\
  FormatSize 102400 = "100 KiB".
Proof.
  split; [|split; [|split]].
  - intros Hneg. unfold FormatSize. now destruct (Z.ltb_spec b 0); [|lia].
  - intros Hsmall. unfold FormatSize.
    destruct (Z.ltb_spec b 0); [lia|].
    destruct (Z.ltb_spec b KiB) as [_|Hk]; [reflexivity|].
    unfold KiB, Byte in Hk. lia.
  - intros Hbig. unfold is_int64 in Hb.
    destruct (format_loop_select b ltac:(lia)) as (u & Hin & Hloop & Hrange & Hmax).
    destruct (unit_value_shape b u Hin Hrange) as (m & e & Hv & _).
    exists u. split; [assumption|]. split; [lia|]. split; [assumption|].
    assert (HF : FormatSize b = format_in b u).
    { unfold FormatSize.
      destruct (Z.ltb_spec b 0); [lia|].
      destruct (Z.ltb_spec b KiB) as [Hk|_]; [unfold KiB, Byte in Hk; lia|].
      now rewrite Hloop. }
    rewrite HF. unfold format_in. cbv zeta. rewrite Hv, of_int_100, of_int_10.
    rewrite !ltb_negb_geb. pose proof (geb_100_10 m e) as Hmono.
    destruct (Float64.geb _ (S754_finite false 7036874417766400 (-46)));
      destruct (Float64.geb _ (S754_finite false 5629499534213120 (-49)));
      try (specialize (Hmono eq_refl); discriminate Hmono);
      cbn [negb];
      repeat match goal with |- _ /\ _ => split end;
      intros; try congruence;
      first [ left; reflexivity
            | right; left; split; reflexivity
            | right; right; reflexivity ].
  - vm_compute. repeat split; reflexivity.
Qed.

Lemma FormatSize_spec_witness :
  is_int64 1536 /\ FormatSize 1536 = "1.50 KiB".
Proof.
  assert (H : is_int64 1536) by (unfold is_int64; lia).
  split; [exact H|]. apply (FormatSize_spec 1536 H).
Defined.

(** C6: for every integer [0 <= n < 2^53], [ParseSize] applied to the
    decimal numeral of [n] returns [n] and no error. *)
Theorem ParseSize_numeral (n : Z) (Hn : 0 <= n < 2 ^ 53) :
  ParseSize (strconv.Itoa n) = (n, None).
Proof.
  destruct n as [|p|p]; [reflexivity| |lia].
  assert (Hdigits : all_chars regexp.isDigit (strconv.Itoa (Zpos p)) = true).
  { rewrite Itoa_pos. apply string_of_uint_digits. }
  assert (Hread := read_decimal_Itoa p).
  destruct (strconv.Itoa (Zpos p)) as [|c r] eqn:Hs.
  { rewrite Itoa_pos in Hs.
    destruct (string_of_uint_cons _ (DecimalPos.Unsigned.to_uint_nonnil p))
      as (c & r & Hcr). congruence. }
  unfold ParseSize. rewrite (TrimSpace_digits c r Hdigits).
  simpl String.eqb. cbv iota.
  rewrite (FindStringSubmatch_digits c r Hdigits).
  simpl nth. unfold strconv.ParseFloat. rewrite Hread.
  change (Z.to_pos (10 ^ Z.of_nat 0)) with 1%positive.
  rewrite (of_ratio_int p) by lia.
  destruct (of_int_exact p) as (m & e & -> & _ & He & Hm); [lia|].
  simpl. f_equal. apply to_int64_exact; try lia.
  pose proof (digits_below p 53 ltac:(lia) ltac:(lia)). lia.
Qed.

Lemma ParseSize_numeral_witness :
  0 <= 1048576 < 2 ^ 53 /\ ParseSize (strconv.Itoa 1048576) = (1048576, None).
Proof.
  split; [lia|]. apply (ParseSize_numeral 1048576). lia.
Defined.

(** C7: [ValidateSize] returns no error exactly when [ParseSize] returns no
    error. *)
Theorem ValidateSize_iff_ParseSize (s : string) :
  ValidateSize s = None <-> exists n, ParseSize s = (n, None).
Proof.
  unfold ValidateSize. destruct (ParseSize s) as [n err]; simpl. split.
  - intros ->. now exists n.
  - intros [n' H]. now inversion H.
Qed.

(** C8: malformed inputs are classified: a blank input (empty, or white
    space only) fails with the empty-input error, an unknown unit with the
    unknown-unit error, and what is not a number followed by letters with
    the invalid-format error. *)
Theorem ParseSize_malformed (s : string) (Hs : blank s) :
  ParseSize s = (0, Some EmptyInput) /\
  ParseSize "" = (0, Some EmptyInput) /\
  ParseSize "1ZiB" = (0, Some (UnknownUnit "zib")) /\
  ParseSize "1XB" = (0, Some (UnknownUnit "xb")) /\
  ParseSize "abc" = (0, Some (InvalidFormat "abc")) /\
  ParseSize "k1" = (0, Some (InvalidFormat "k1")).
Proof.
  split.
  - unfold ParseSize. now rewrite (TrimSpace_blank s Hs).
  - vm_compute. repeat split; reflexivity.
Qed.

Lemma ParseSize_malformed_witness :
  blank (String "009" (String " " (String "194" (String "160" "")))) /\
  ParseSize (String "009" (String " " (String "194" (String "160" "")))) =
    (0, Some EmptyInput).
Proof.
  assert (H : blank (String "009" (String " " (String "194" (String "160" ""))))).
  { apply blank_ascii; [reflexivity|]. apply blank_ascii; [reflexivity|].
    apply blank_two; [reflexivity|]. apply blank_nil. }
  split; [exact H|]. apply (ParseSize_malformed _ H).
Defined.

(** C9: [ParseSize] never returns the negative-size error: the pattern only
    admits numerals that begin with a digit, and such a numeral is never
    parsed to a negative number. *)
Theorem ParseSize_never_NegativeSize (s : string) (f : float64) :
  snd (ParseSize s) <> Some (NegativeSize f).
Proof.
  unfold ParseSize.
  destruct (String.eqb _ ""); [discriminate|].
  destruct (regexp.FindStringSubmatch _) as [matches|] eqn:Hm; [|discriminate].
  destruct (FindStringSubmatch_spec _ _ Hm)
    as (numberStr & ws & letters & -> & _ & Hdecimal & _).
  cbn [nth].
  pose proof (ParseFloat_decimal_not_negative numberStr Hdecimal) as Hsign.
  destruct (strconv.ParseFloat _) as [number [err|]]; [discriminate|].
  simpl in Hsign. rewrite Hsign.
  destruct (String.eqb _ ""); [discriminate|].
  destruct (unitMap !! _); [|discriminate].
  destruct (Float64.gtb _ _); discriminate.
Qed.

(** C10: every string [FormatSize] produces for an [int64] is accepted by
    [ParseSize]. *)
Theorem ParseSize_FormatSize_no_error (b : Z) (Hb : is_int64 b) :
  snd (ParseSize (FormatSize b)) = None.
Proof.
  assert (Hacc : accepted (FormatSize b) = true).
  { destruct (Z_lt_le_dec b 0) as [Hneg|Hnn].
    - unfold FormatSize. destruct (Z.ltb_spec b 0); [vm_compute; reflexivity|lia].
    - destruct (Z_lt_le_dec b 1024) as [Hsmall|Hbig].
      + pose proof accepted_bytes_true as Hall. unfold accepted_bytes in Hall.
        rewrite forallb_forall in Hall. specialize (Hall (Z.to_nat b)).
        rewrite Z2Nat.id in Hall by lia. apply Hall, in_seq. lia.
      + unfold is_int64 in Hb.
        destruct (format_loop_select b ltac:(lia))
          as (u & Hin & Hloop & Hrange & _).
        destruct (format_in_cases b u Hin Hrange) as (p & scaled & Hfmt & Hsc).
        unfold FormatSize.
        destruct (Z.ltb_spec b 0); [lia|].
        destruct (Z.ltb_spec b KiB) as [Hk|_]; [unfold KiB, Byte in Hk; lia|].
        rewrite Hloop, Hfmt.
        pose proof accepted_outputs_true as Hall. unfold accepted_outputs in Hall.
        rewrite forallb_forall in Hall. specialize (Hall u Hin).
        apply andb_true_iff in Hall as [H1 H2].
        destruct Hsc as [[-> Hs]|[[->| ->] Hs]];
          eauto using accepted_range_spec.
        unfold accepted. rewrite fixed_whole.
        now rewrite (ParseSize_whole_units scaled u Hs Hin). }
  unfold accepted in Hacc. now destruct (snd (ParseSize (FormatSize b))).
Qed.

Lemma ParseSize_FormatSize_no_error_witness :
  is_int64 9223372036854775807 /\
  snd (ParseSize (FormatSize 9223372036854775807)) = None.
Proof.
  split; [unfold is_int64; lia|].
  apply (ParseSize_FormatSize_no_error 9223372036854775807). unfold is_int64. lia.
Defined.

(* ================================================================= *)
(** * Further properties of the package *)

(* ================================================================= *)
(** ** The unit table *)

(** The entries of the table, with the values of the constants. *)
Lemma unitMap_elem (k : string) (m : Z) :
  unitMap !! k = Some m ->
  In (k, m)
    [ ("b", 1); ("byte", 1); ("bytes", 1);
      ("kib", 2 ^ 10); ("mib", 2 ^ 20); ("gib", 2 ^ 30); ("tib", 2 ^ 40);
      ("pib", 2 ^ 50);
      ("k", 2 ^ 10); ("m", 2 ^ 20); ("g", 2 ^ 30); ("t", 2 ^ 40); ("p", 2 ^ 50);
      ("kb", 10 ^ 3); ("mb", 10 ^ 6); ("gb", 10 ^ 9); ("tb", 10 ^ 12);
      ("pb", 10 ^ 15) ].
Proof.
  intros H. apply elem_of_list_to_map_2 in H. apply list_elem_of_In in H.
  exact H.
Qed.

(** X1: every entry of [unitMap] has a key made of lower-case letters only,
    which [strings.ToLower] leaves as it is, and a multiplier that is a
    power of 1024 or of 1000 up to the fifth and that [float64] holds
    exactly. *)
Theorem unitMap_entries (k : string) (m : Z) :
  unitMap !! k = Some m ->
  k <> "" /\ all_chars regexp.isLetter k = true /\ strings.ToLower k = k /\
  (exists n, 0 <= n <= 5 /\ (m = 1024 ^ n \/ m = 1000 ^ n)) /\
  Float64.trunc (Float64.of_int m) = Some m.
Proof.
  intros H. apply unitMap_elem in H. simpl in H.
  repeat (destruct H as [H|H]; [injection H as <- <-|]); try contradiction.
  all: split; [discriminate|]; split; [reflexivity|]; split; [reflexivity|].
  all: split; [|vm_compute; reflexivity].
  1-3: exists 0; split; [lia|left; reflexivity].
  1,6: exists 1; split; [lia|left; reflexivity].
  1,5: exists 2; split; [lia|left; reflexivity].
  1,4: exists 3; split; [lia|left; reflexivity].
  1,3: exists 4; split; [lia|left; reflexivity].
  1,2: exists 5; split; [lia|left; reflexivity].
  - exists 1; split; [lia|right; reflexivity].
  - exists 2; split; [lia|right; reflexivity].
  - exists 3; split; [lia|right; reflexivity].
  - exists 4; split; [lia|right; reflexivity].
  - exists 5; split; [lia|right; reflexivity].
Qed.

Lemma unitMap_entries_witness :
  unitMap !! "kib" = Some 1024 /\
  ("kib" <> "" /\ all_chars regexp.isLetter "kib" = true /\
   strings.ToLower "kib" = "kib" /\
   (exists n, 0 <= n <= 5 /\ (1024 = 1024 ^ n \/ 1024 = 1000 ^ n)) /\
   Float64.trunc (Float64.of_int 1024) = Some 1024).
Proof.
  assert (H : unitMap !! "kib" = Some 1024) by (vm_compute; reflexivity).
  split; [exact H|]. apply (unitMap_entries "kib" 1024 H).
Defined.

(* ================================================================= *)
(** ** The integers that binary64 holds *)

(** Only positive integers have a normal number. *)
Lemma represents_pos (m : positive) (e z : Z) : represents m e z -> 0 < z.
Proof.
  intros (_ & He & Heq).
  assert (0 < 2 ^ (e + 1074)) by (apply pow2_pos; lia).
  assert (0 < 2 ^ 1074) by (apply pow2_pos; lia).
  set (P := 2 ^ 1074) in *. set (Q := 2 ^ (e + 1074)) in *. nia.
Qed.

(** The exponent is given by the number of bits of the integer. *)
Lemma represents_digits (m p : positive) (e : Z) :
  represents m e (Zpos p) -> Zpos (digits2_pos p) = 53 + e.
Proof.
  intros (Hd & He & Heq).
  assert (H1 : 0 < Zpos m * 2 ^ (e + 1074)) by (pose proof (pow2_pos (e + 1074)); lia).
  destruct (Zpos m * 2 ^ (e + 1074)) as [|w|w] eqn:Hw; [lia| |lia].
  pose proof (digits_scaled m (e + 1074) w ltac:(lia) (eq_sym Hw)) as D1.
  pose proof (digits_scaled p 1074 w ltac:(lia) Heq) as D2. lia.
Qed.

(** Below zero the exponent shifts the integer, above it the mantissa. *)
Lemma represents_cases (m : positive) (e z : Z) :
  represents m e z ->
  (e <= 0 -> Zpos m = z * 2 ^ (- e)) /\ (0 <= e -> z = Zpos m * 2 ^ e).
Proof.
  intros (Hd & He & Heq).
  assert (HP : 0 < 2 ^ 1074) by (apply pow2_pos; lia).
  split; intros Hs.
  - assert (Hsplit : 2 ^ 1074 = 2 ^ (- e) * 2 ^ (e + 1074)).
    { rewrite <- Z.pow_add_r by lia. f_equal. lia. }
    assert (0 < 2 ^ (e + 1074)) by (apply pow2_pos; lia).
    rewrite Hsplit in Heq.
    set (Q := 2 ^ (e + 1074)) in *. set (R := 2 ^ (- e)) in *. nia.
  - assert (Hsplit : 2 ^ (e + 1074) = 2 ^ e * 2 ^ 1074).
    { rewrite <- Z.pow_add_r by lia. f_equal. }
    rewrite Hsplit in Heq.
    set (P := 2 ^ 1074) in *. set (R := 2 ^ e) in *. nia.
Qed.

(** An integer of at most 53 significant bits has its normal number. *)
Lemma representable_represents (p : positive) :
  representable (Zpos p) -> exists m e, represents m e (Zpos p).
Proof.
  intros (c & k & Hc & Hk & Hz).
  assert (Hk2 : 0 < 2 ^ k) by (apply pow2_pos; lia).
  destruct c as [|c|c]; [lia| |lia].
  pose proof (digits_below c 53 ltac:(lia) ltac:(lia)) as Hd.
  set (s := 53 - Zpos (digits2_pos c)).
  assert (Hs2 : 0 < 2 ^ s) by (apply pow2_pos; lia).
  exists (Z.to_pos (Zpos c * 2 ^ s)), (k - s).
  assert (Hm : Zpos (Z.to_pos (Zpos c * 2 ^ s)) = Zpos c * 2 ^ s)
    by (rewrite Z2Pos.id; lia).
  split; [|split; [lia|]].
  - rewrite (digits_scaled c s _ ltac:(lia) Hm). lia.
  - rewrite Hm, Hz, <- !Z.mul_assoc, <- !Z.pow_add_r by lia.
    do 2 f_equal. lia.
Qed.

(** Integers below [2^53] are held. *)
Lemma representable_small (z : Z) : 0 <= z < 2 ^ 53 -> representable z.
Proof. intros Hz. exists z, 0. repeat split; lia. Qed.

(** [float64(z)] is exact on the integers binary64 holds. *)
Lemma of_int_represents (m : positive) (e z : Z) :
  represents m e z -> e <= 971 -> Float64.of_int z = S754_finite false m e.
Proof.
  intros H Hmax. pose proof (represents_pos _ _ _ H) as Hz.
  destruct z as [|p|p]; [lia| |lia].
  pose proof (represents_digits _ _ _ H) as Hdp.
  destruct (represents_cases _ _ _ H) as [Hneg Hnn].
  destruct H as (Hd & He & _).
  destruct (Z_le_gt_dec e 0) as [Hle|Hgt].
  - assert (Hp : Zpos p < 2 ^ 53).
    { pose proof (digits2_pos_bounds p) as [_ Hhi].
      apply Z.lt_le_trans with (1 := Hhi). apply Z.pow_le_mono_r; lia. }
    destruct (of_int_exact p Hp) as (m' & e' & -> & _ & He' & Hm').
    assert (e' = e) as -> by lia.
    specialize (Hneg Hle). rewrite <- Hneg in Hm'. now injection Hm' as ->.
  - unfold Float64.of_int, binary_normalize, binary_round, shl_align.
    rewrite fexp_normal by lia.
    destruct (Zpos (digits2_pos p) + 0 - 53 - 0) eqn:Hq; try lia.
    rewrite (Hnn ltac:(lia)). rewrite round_exact by lia. f_equal.
Qed.

(** The nearest binary64 of an integer is [float64] of it. *)
Lemma of_ratio_of_int (p : positive) :
  Float64.of_ratio p 1 = Float64.of_int (Zpos p).
Proof.
  destruct (Z_lt_le_dec (Zpos p) (2 ^ 53)) as [Hsmall|Hbig].
  { now apply of_ratio_int. }
  pose proof (digits_above p 53 ltac:(lia) Hbig) as Hd.
  unfold Float64.of_ratio, SFdiv_core_binary. simpl Zdigits2.
  rewrite fexp_normal by lia.
  replace (Z.min (Zpos (digits2_pos p) + 0 - (1 + 0) - 53) (0 - 0)) with 0 by lia.
  cbv iota. simpl (0 - 0 - 0). cbv iota.
  rewrite div_eucl_eq, Z.div_1_r, Z.mod_1_r. simpl new_location.
  unfold Float64.of_int, binary_normalize, binary_round, shl_align.
  rewrite fexp_normal by lia.
  destruct (Zpos (digits2_pos p) + 0 - 53 - 0) eqn:Hq; try lia; reflexivity.
Qed.

(** A product that binary64 holds is computed exactly. *)
Lemma mul_represents (ma mb m : positive) (ea eb e a b : Z) :
  represents ma ea a -> represents mb eb b -> represents m e (a * b) ->
  e <= 971 ->
  Float64.mul (S754_finite false ma ea) (S754_finite false mb eb)
  = S754_finite false m e.
Proof.
  intros Ha Hb Hab Hmax.
  pose proof (represents_pos _ _ _ Ha) as Hapos.
  pose proof (represents_pos _ _ _ Hb) as Hbpos.
  destruct a as [|pa|pa]; [lia| |lia]. destruct b as [|pb|pb]; [lia| |lia].
  pose proof (represents_digits _ _ _ Ha) as Hda.
  pose proof (represents_digits _ _ _ Hb) as Hdb.
  change (Zpos pa * Zpos pb) with (Zpos (pa * pb)) in Hab.
  pose proof (represents_digits _ _ _ Hab) as Hdab.
  assert (Hdprod : Zpos (digits2_pos pa) + Zpos (digits2_pos pb) - 1
                   <= Zpos (digits2_pos (pa * pb))).
  { pose proof (digits2_pos_bounds pa) as [La _].
    pose proof (digits2_pos_bounds pb) as [Lb _].
    assert (1 <= Zpos (digits2_pos pa)) by lia.
    assert (1 <= Zpos (digits2_pos pb)) by lia.
    enough (Zpos (digits2_pos pa) - 1 + (Zpos (digits2_pos pb) - 1) + 1
            <= Zpos (digits2_pos (pa * pb))) by lia.
    apply digits_above; [lia|].
    rewrite Z.pow_add_r, Pos2Z.inj_mul by lia.
    apply Z.mul_le_mono_nonneg; try lia; apply Z.lt_le_incl, pow2_pos; lia. }
  destruct Ha as (Dma & Ea & Va). destruct Hb as (Dmb & Eb & Vb).
  destruct Hab as (Dm & Em & Vab).
  assert (Hk : 52 <= e - ea - eb) by lia.
  assert (Hprod : Zpos ma * Zpos mb = Zpos m * 2 ^ (e - ea - eb)).
  { assert (Hsplit : 2 ^ (e + 1074) * 2 ^ 1074
                     = 2 ^ (e - ea - eb) * (2 ^ (ea + 1074) * 2 ^ (eb + 1074))).
    { rewrite <- !Z.pow_add_r by lia. f_equal. lia. }
    assert (0 < 2 ^ (ea + 1074)) by (apply pow2_pos; lia).
    assert (0 < 2 ^ (eb + 1074)) by (apply pow2_pos; lia).
    rewrite Pos2Z.inj_mul in Vab.
    set (P := 2 ^ 1074) in *. set (A := 2 ^ (ea + 1074)) in *.
    set (B := 2 ^ (eb + 1074)) in *. set (T := 2 ^ (e + 1074)) in *.
    set (D := 2 ^ (e - ea - eb)) in *.
    assert (Zpos ma * Zpos mb * (A * B) = Zpos m * D * (A * B)).
    { replace (Zpos ma * Zpos mb * (A * B)) with ((Zpos ma * A) * (Zpos mb * B)) by lia.
      rewrite Va, Vb.
      replace (Zpos m * D * (A * B)) with (Zpos m * (D * (A * B))) by lia.
      rewrite <- Hsplit.
      replace (Zpos m * (T * P)) with (Zpos m * T * P) by lia. rewrite Vab. lia. }
    apply Z.mul_reg_r with (A * B); [nia|assumption]. }
  unfold Float64.mul, SFmul. simpl xorb.
  rewrite Pos2Z.inj_mul, Hprod, round_exact by lia. f_equal. lia.
Qed.

(** The comparison with [2^63] and the conversion of an integer value. *)
Lemma gtb_represents (m : positive) (e z : Z) :
  represents m e z ->
  Float64.gtb (S754_finite false m e) (S754_finite false 4503599627370496 11)
  = (2 ^ 63 <? z).
Proof.
  intros H. destruct (represents_cases _ _ _ H) as [Hneg Hnn].
  pose proof (represents_pos _ _ _ H) as Hz.
  destruct H as (Hd & He & _).
  pose proof (digits2_pos_bounds m) as Hb. rewrite Hd in Hb. change (53 - 1) with 52 in Hb.
  unfold Float64.gtb, SFltb, SFcompare.
  destruct (Z.compare_spec 11 e) as [<-|Hlt|Hgt].
  - specialize (Hnn ltac:(lia)).
    change (Pos.compare_cont Eq 4503599627370496 m)
      with (Z.compare 4503599627370496 (Zpos m)).
    destruct (Z.compare_spec 4503599627370496 (Zpos m));
      destruct (Z.ltb_spec (2 ^ 63) z); try reflexivity; lia.
  - specialize (Hnn ltac:(lia)).
    assert (2 ^ 12 <= 2 ^ e) by (apply Z.pow_le_mono_r; lia).
    destruct (Z.ltb_spec (2 ^ 63) z); [reflexivity|]. nia.
  - destruct (Z.ltb_spec (2 ^ 63) z) as [Hbig|]; [exfalso|reflexivity].
    destruct (Z_le_gt_dec 0 e) as [Hpos|Hlt].
    + specialize (Hnn Hpos).
      assert (2 ^ e <= 2 ^ 10) by (apply Z.pow_le_mono_r; lia). nia.
    + specialize (Hneg ltac:(lia)).
      assert (1 <= 2 ^ (- e)) by (pose proof (pow2_pos (- e)); lia). nia.
Qed.

(** The conversion of an integer value in range. *)
Lemma to_int64_represents (m : positive) (e z : Z) :
  represents m e z -> z < 2 ^ 63 -> Float64.to_int64 (S754_finite false m e) = z.
Proof.
  intros H Hz. destruct (represents_cases _ _ _ H) as [Hneg Hnn].
  pose proof (represents_pos _ _ _ H) as Hzpos.
  destruct (Z_le_gt_dec e 0) as [Hle|Hgt].
  - apply to_int64_exact; [assumption|now apply Hneg|lia].
  - specialize (Hnn ltac:(lia)).
    unfold Float64.to_int64, Float64.trunc, cond_Zopp.
    rewrite Z.shiftl_mul_pow2, <- Hnn by lia. unfold in_int64.
    destruct (Z.leb_spec (- 2 ^ 63) z); [|lia].
    destruct (Z.ltb_spec z (2 ^ 63)); [reflexivity|lia].
Qed.

(** A mantissa too long for the largest exponent rounds to infinity. *)
Lemma round_overflow (m : positive) (e : Z) :
  53 <= Zpos (digits2_pos m) -> 971 < Zpos (digits2_pos m) + e - 53 ->
  binary_round_aux Float64.prec Float64.emax false (Zpos m) e loc_Exact
  = S754_infinity false.
Proof.
  intros Hd He. pose proof (digits2_pos_bounds m) as [Hlo Hhi].
  set (d := Zpos (digits2_pos m)) in *.
  unfold binary_round_aux, shr_fexp. simpl Zdigits2. fold d.
  rewrite fexp_normal by lia.
  replace (d + e - 53 - e) with (d - 53) by lia.
  change (shr_record_of_loc (Zpos m) loc_Exact)
    with (Build_shr_record (Zpos m) false false).
  set (r0 := Build_shr_record (Zpos m) false false).
  assert (Hfirst : exists r1,
    shr r0 e (d - 53) = (r1, e + (d - 53)) /\ 2 ^ 52 <= shr_m r1 < 2 ^ 53).
  { destruct (d - 53) as [|p|p] eqn:Hn; [| |lia].
    - exists r0. split; [simpl; f_equal; lia|]. simpl.
      replace d with 53 in * by lia. simpl in Hlo. lia.
    - exists (SpecFloat.iter_pos shr_1 p r0). split; [reflexivity|].
      rewrite iter_pos_nat, shr_iter_m by (simpl; lia).
      rewrite positive_nat_Z. simpl shr_m.
      assert (Hp : 0 < 2 ^ Zpos p) by (apply pow2_pos; lia).
      replace (d - 1) with (52 + Zpos p) in Hlo by lia.
      replace d with (53 + Zpos p) in Hhi by lia.
      rewrite Z.pow_add_r in Hlo, Hhi by lia. split.
      + apply Z.div_le_lower_bound; lia.
      + apply Z.div_lt_upper_bound; lia. }
  destruct Hfirst as (r1 & -> & Hr1).
  pose proof (round_nearest_even_range r1) as Hrne.
  set (m1 := round_nearest_even (shr_m r1) (loc_of_shr_record r1)) in *.
  destruct m1 as [|p1|p1] eqn:Hm1; [lia| |lia].
  destruct (Z.eq_dec (Zpos p1) (2 ^ 53)) as [Hcarry|Hno].
  - assert (p1 = 9007199254740992%positive) as -> by lia.
    change (Zdigits2 9007199254740992) with 54.
    rewrite fexp_normal by lia.
    replace (54 + (e + (d - 53)) - 53 - (e + (d - 53))) with 1 by lia.
    simpl.
    destruct (Z.leb_spec (e + (d - 53) + 1) (Float64.emax - Float64.prec)) as [Hle|_];
      [unfold Float64.emax, Float64.prec in Hle; lia|reflexivity].
  - assert (Hd1 : Zpos (digits2_pos p1) = 53) by (apply digits2_pos_unique; simpl; lia).
    simpl Zdigits2. rewrite Hd1, fexp_normal by lia.
    replace (53 + (e + (d - 53)) - 53 - (e + (d - 53))) with 0 by lia. simpl.
    destruct (Z.leb_spec (e + (d - 53)) (Float64.emax - Float64.prec)) as [Hle|_];
      [unfold Float64.emax, Float64.prec in Hle; lia|reflexivity].
Qed.

(** [float64] of an integer of [2^1024] or more is infinite. *)
Lemma of_int_overflow (p : positive) :
  2 ^ 1024 <= Zpos p -> Float64.of_int (Zpos p) = S754_infinity false.
Proof.
  intros Hp. pose proof (digits_above p 1024 ltac:(lia) Hp) as Hd.
  unfold Float64.of_int, binary_normalize, binary_round, shl_align.
  rewrite fexp_normal by lia.
  destruct (Zpos (digits2_pos p) + 0 - 53 - 0) eqn:Hq; try lia.
  apply round_overflow; lia.
Qed.

(** The decimal numeral of a positive integer is read as [float64] of it,
    with a range error when that is infinite. *)
Lemma ParseFloat_Itoa_pos (p : positive) :
  strconv.ParseFloat (strconv.Itoa (Zpos p)) =
    match Float64.of_int (Zpos p) with
    | S754_infinity sg => (S754_infinity sg, Some strconv.ErrRange)
    | f => (f, None)
    end.
Proof.
  unfold strconv.ParseFloat. rewrite read_decimal_Itoa.
  change (Z.to_pos (10 ^ Z.of_nat 0)) with 1%positive.
  now rewrite of_ratio_of_int.
Qed.

(** The multipliers of the unit table are held exactly. *)
Lemma unitMap_represents (k : string) (m : Z) :
  unitMap !! k = Some m ->
  exists mm em, represents mm em m /\ em <= 0 /\
                Float64.of_int m = S754_finite false mm em.
Proof.
  intros H. apply unitMap_elem in H.
  assert (Hm : 0 < m < 2 ^ 53).
  { simpl in H.
    repeat (destruct H as [H|H]; [injection H as <- <-; lia|]). contradiction. }
  destruct m as [|p|p]; try lia.
  destruct (representable_represents p) as (mm & em & Hr).
  { exists (Zpos p), 0. repeat split; lia. }
  exists mm, em. pose proof (represents_digits _ _ _ Hr) as Hd.
  pose proof (digits_below p 53 ltac:(lia) ltac:(lia)).
  split; [assumption|]. split; [lia|]. apply of_int_represents; [assumption|lia].
Qed.

(** So are their multiples by the units of [FormatSize]. *)
Lemma representable_units (n : Z) (u : formatUnit) :
  In u units -> 0 <= n < 2 ^ 53 -> representable (n * multiplier u).
Proof.
  intros Hu Hn. destruct (units_pow2 u Hu) as (j & Hj & -> & _).
  exists n, (10 * j). repeat split; lia.
Qed.

(* ================================================================= *)
(** ** Whole numbers, with and without a unit *)

(** The numeral of a whole number has the shape of a number. *)
Lemma Itoa_is_decimal (n : Z) : 0 <= n -> is_decimal (strconv.Itoa n).
Proof.
  intros Hn. destruct n as [|p|p]; [| |lia].
  - exists "0". repeat split; [discriminate|now left].
  - destruct (Itoa_pos_digits p) as (c & r & Hs & Hdigits).
    exists (strconv.Itoa (Zpos p)). rewrite Hs.
    repeat split; [discriminate|assumption|now left].
Qed.

(** The result for a whole number [n] followed by a unit of multiplier
    [m], when binary64 holds [n] and [n * m]. *)
Section WholeNumber.

Variable n : Z.
Variables ws letters : string.
Variable m : Z.
Hypothesis Hn : 0 <= n.
Hypothesis Hrep : representable n.
Hypothesis Hws : all_chars regexp.isSpace ws = true.
Hypothesis Hletters : all_chars regexp.isLetter letters = true.
Hypothesis Hunit : unitMap !! strings.ToLower letters = Some m.
Hypothesis Hprod : representable (n * m).

Lemma whole_number_product :
  n * m < 2 ^ 1024 ->
  ParseSize (strconv.Itoa n ++ ws ++ letters) =
    if 2 ^ 63 <? n * m
    then (0, Some (Overflow (strconv.Itoa n ++ ws ++ letters)))
    else (Float64.to_int64 (Float64.of_int (n * m)), None).
Proof using Hn Hrep Hws Hletters Hunit Hprod.
  intros Hbound.
  destruct (unitMap_represents _ _ Hunit) as (mm & em & Hm & Hem & Hfm).
  pose proof (represents_pos _ _ _ Hm) as Hmpos.
  destruct n as [|p|p]; [| |lia].
  - change (strconv.Itoa 0) with "0".
    rewrite (ParseSize_with_unit "0" ws letters Float64.zero m);
      [|apply (Itoa_is_decimal 0); lia|assumption|assumption|reflexivity|assumption].
    rewrite Hfm. reflexivity.
  - destruct (representable_represents p Hrep) as (mp & ep & Hp).
    destruct m as [|q|q]; try lia.
    change (Zpos p * Zpos q) with (Zpos (p * q)) in *.
    destruct (representable_represents (p * q) Hprod) as (mr & er & Hr).
    pose proof (represents_digits _ _ _ Hp) as Hdp.
    pose proof (represents_digits _ _ _ Hr) as Hdr.
    pose proof (digits_below (p * q) 1024 ltac:(lia) Hbound) as Hdpq.
    assert (Hpb : Zpos p < 2 ^ 1024).
    { rewrite Pos2Z.inj_mul in Hbound. nia. }
    pose proof (digits_below p 1024 ltac:(lia) Hpb) as Hdp'.
    assert (Hfp : Float64.of_int (Zpos p) = S754_finite false mp ep)
      by (apply of_int_represents; [assumption|lia]).
    rewrite (ParseSize_with_unit _ ws letters (S754_finite false mp ep) (Zpos q));
      [|apply Itoa_is_decimal; lia|assumption|assumption| |assumption].
    2:{ rewrite ParseFloat_Itoa_pos, Hfp. reflexivity. }
    rewrite Hfm. cbv zeta.
    rewrite (mul_represents mp mm mr ep em er (Zpos p) (Zpos q)); try assumption;
      [|lia].
    rewrite (gtb_represents mr er (Zpos (p * q)) Hr).
    rewrite (of_int_represents mr er (Zpos (p * q)) Hr) by lia. reflexivity.
Qed.

End WholeNumber.

(** The conversions of an integer that binary64 holds, there and back. *)
Lemma to_int64_of_int (z : Z) :
  representable z -> 0 <= z < 2 ^ 63 ->
  Float64.to_int64 (Float64.of_int z) = z.
Proof.
  intros Hrep Hz. destruct z as [|p|p]; [reflexivity| |lia].
  destruct (representable_represents p Hrep) as (mr & er & Hr).
  pose proof (represents_digits _ _ _ Hr) as Hdr.
  pose proof (digits_below p 63 ltac:(lia) ltac:(lia)) as Hd.
  rewrite (of_int_represents mr er (Zpos p) Hr) by lia.
  apply (to_int64_represents mr er (Zpos p) Hr). lia.
Qed.

(** X2: a whole number [n] followed by optional white space and a unit of
    the table, in any case of letters, gives exactly [n] times the
    multiplier, whenever binary64 holds [n] and the product, and the product
    is below [2^63]. *)
Theorem ParseSize_whole_number (n : Z) (ws letters : string) (m : Z) :
  0 <= n -> representable n ->
  all_chars regexp.isSpace ws = true ->
  all_chars regexp.isLetter letters = true ->
  unitMap !! strings.ToLower letters = Some m ->
  representable (n * m) -> n * m < 2 ^ 63 ->
  ParseSize (strconv.Itoa n ++ ws ++ letters) = (n * m, None).
Proof.
  intros Hn Hrep Hws Hletters Hunit Hprod Hlt.
  rewrite (whole_number_product n ws letters m) by (try assumption; lia).
  destruct (Z.ltb_spec (2 ^ 63) (n * m)) as [|_]; [lia|].
  destruct (unitMap_represents _ _ Hunit) as (mm & em & Hm & _).
  pose proof (represents_pos _ _ _ Hm) as Hmpos.
  rewrite to_int64_of_int; [reflexivity|assumption|nia].
Qed.

Lemma ParseSize_whole_number_witness :
  0 <= 3 /\ representable 3 /\
  all_chars regexp.isSpace " " = true /\
  all_chars regexp.isLetter "GB" = true /\
  unitMap !! strings.ToLower "GB" = Some 1000000000 /\
  representable (3 * 1000000000) /\ 3 * 1000000000 < 2 ^ 63 /\
  ParseSize (strconv.Itoa 3 ++ " " ++ "GB") = (3 * 1000000000, None).
Proof.
  assert (H1 : representable 3) by (exists 3, 0; repeat split; lia).
  assert (H2 : unitMap !! strings.ToLower "GB" = Some 1000000000)
    by (vm_compute; reflexivity).
  assert (H3 : representable (3 * 1000000000))
    by (exists 3000000000, 0; repeat split; lia).
  repeat (split; [first [lia | reflexivity | assumption]|]).
  apply (ParseSize_whole_number 3 " " "GB" 1000000000);
    first [lia | reflexivity | assumption].
Defined.

(** X3: a whole number with a unit whose product binary64 holds and that is
    above [2^63] (and below [2^1024]) fails with the overflow error, which
    carries the input. *)
Theorem ParseSize_whole_overflow (n : Z) (ws letters : string) (m : Z) :
  0 <= n -> representable n ->
  all_chars regexp.isSpace ws = true ->
  all_chars regexp.isLetter letters = true ->
  unitMap !! strings.ToLower letters = Some m ->
  representable (n * m) -> 2 ^ 63 < n * m < 2 ^ 1024 ->
  ParseSize (strconv.Itoa n ++ ws ++ letters)
  = (0, Some (Overflow (strconv.Itoa n ++ ws ++ letters))).
Proof.
  intros Hn Hrep Hws Hletters Hunit Hprod Hlt.
  rewrite (whole_number_product n ws letters m) by (try assumption; lia).
  destruct (Z.ltb_spec (2 ^ 63) (n * m)) as [_|]; [reflexivity|lia].
Qed.

Lemma ParseSize_whole_overflow_witness :
  0 <= 8193 /\ representable 8193 /\
  all_chars regexp.isSpace "" = true /\
  all_chars regexp.isLetter "PiB" = true /\
  unitMap !! strings.ToLower "PiB" = Some (2 ^ 50) /\
  representable (8193 * 2 ^ 50) /\ 2 ^ 63 < 8193 * 2 ^ 50 < 2 ^ 1024 /\
  ParseSize (strconv.Itoa 8193 ++ "" ++ "PiB")
  = (0, Some (Overflow (strconv.Itoa 8193 ++ "" ++ "PiB"))).
Proof.
  assert (H1 : representable 8193) by (exists 8193, 0; repeat split; lia).
  assert (H2 : unitMap !! strings.ToLower "PiB" = Some (2 ^ 50))
    by (vm_compute; reflexivity).
  assert (H3 : representable (8193 * 2 ^ 50))
    by (exists 8193, 50; repeat split; lia).
  assert (H4 : 2 ^ 63 < 8193 * 2 ^ 50 < 2 ^ 1024) by lia.
  repeat (split; [first [lia | reflexivity | assumption]|]).
  apply (ParseSize_whole_overflow 8193 "" "PiB" (2 ^ 50));
    first [lia | reflexivity | assumption].
Defined.

(** X4: a numeral of [2^1024] or more is beyond binary64:
    [strconv.ParseFloat] reports a range error and [ParseSize] fails with
    the invalid-number error, which carries the numeral, whatever follows
    the number, a unit of the table or not. *)
Theorem ParseSize_huge_number (n : Z) (ws letters : string) :
  2 ^ 1024 <= n ->
  all_chars regexp.isSpace ws = true ->
  all_chars regexp.isLetter letters = true ->
  ParseSize (strconv.Itoa n ++ ws ++ letters)
  = (0, Some (InvalidNumber (strconv.Itoa n))).
Proof.
  intros Hn Hws Hletters.
  assert (Hpos : 0 < n) by (pose proof (pow2_pos 1024); lia).
  destruct n as [|p|p]; try lia.
  pose proof (ParseSize_shape "" (strconv.Itoa (Zpos p)) ws letters ""
                blank_nil blank_nil (Itoa_is_decimal (Zpos p) ltac:(lia)) Hws Hletters) as H.
  rewrite app_empty_l, app_empty_r in H. rewrite H. unfold convert.
  now rewrite ParseFloat_Itoa_pos, of_int_overflow.
Qed.

Lemma ParseSize_huge_number_witness :
  2 ^ 1024 <= 2 ^ 1024 /\
  all_chars regexp.isSpace " " = true /\
  all_chars regexp.isLetter "xyz" = true /\
  ParseSize (strconv.Itoa (2 ^ 1024) ++ " " ++ "xyz")
  = (0, Some (InvalidNumber (strconv.Itoa (2 ^ 1024)))).
Proof.
  split; [lia|]. split; [reflexivity|]. split; [reflexivity|].
  apply (ParseSize_huge_number (2 ^ 1024) " " "xyz"); first [lia | reflexivity].
Defined.

(** The bit that a shift to the right moves out is kept as the round
    bit. *)
Lemma shr_1_r (r : shr_record) : 0 <= shr_m r -> shr_r (shr_1 r) = Z.odd (shr_m r).
Proof.
  destruct r as [m rb sb]; simpl. intros Hm.
  destruct m as [|[p|p|]|p]; simpl; try reflexivity; lia.
Qed.

Lemma shr_iter_r (k : nat) (r : shr_record) :
  0 <= shr_m r ->
  shr_r (Nat.iter (S k) shr_1 r) = Z.odd (shr_m r / 2 ^ Z.of_nat k).
Proof.
  intros Hm. simpl Nat.iter. rewrite shr_1_r, shr_iter_m by
    (try rewrite shr_iter_m by assumption; try apply Z.div_pos; try assumption;
     try (apply pow2_pos; lia)).
  reflexivity.
Qed.

(** Rounding to nearest goes up only when the round bit is set. *)
Lemma round_nearest_even_up (r : shr_record) :
  round_nearest_even (shr_m r) (loc_of_shr_record r) <> shr_m r -> shr_r r = true.
Proof. destruct r as [m [] []]; simpl; congruence. Qed.

(** [float64(n)] for [n] below [2^63 - 512] is below [2^63]: the rounding
    does not reach the next power of two. *)
Lemma of_int_below_max (p : positive) :
  Zpos p < 2 ^ 63 - 512 ->
  exists m e,
    Float64.of_int (Zpos p) = S754_finite false m e /\
    2 ^ 52 <= Zpos m < 2 ^ 53 /\ e <= 10 /\
    (53 < Zpos (digits2_pos p) -> 0 < e).
Proof.
  intros Hp. destruct (Z_lt_le_dec (Zpos p) (2 ^ 62)) as [Hsmall|Hbig].
  - destruct (of_int_shape p ltac:(lia)) as (m & e & Hf & Hm & He).
    pose proof (digits_below p 62 ltac:(lia) Hsmall) as Hd.
    exists m, e. repeat split; try tauto; lia.
  - assert (Hd : Zpos (digits2_pos p) = 63) by (apply digits2_pos_unique; lia).
    unfold Float64.of_int, binary_normalize, binary_round, shl_align.
    rewrite Hd. change (fexp Float64.prec Float64.emax (63 + 0)) with 10.
    change (10 - 0) with 10. cbv iota.
    unfold binary_round_aux, shr_fexp. simpl Zdigits2. rewrite Hd.
    change (fexp Float64.prec Float64.emax (63 + 0) - 0) with 10.
    change (shr_record_of_loc (Zpos p) loc_Exact)
      with (Build_shr_record (Zpos p) false false).
    set (r0 := Build_shr_record (Zpos p) false false).
    change (shr r0 0 10) with (SpecFloat.iter_pos shr_1 10 r0, 10).
    rewrite iter_pos_nat. change (Pos.to_nat 10) with 10%nat.
    set (r1 := Nat.iter 10 shr_1 r0).
    assert (Hm1 : shr_m r1 = Zpos p / 2 ^ 10).
    { unfold r1. rewrite shr_iter_m by (simpl; lia). reflexivity. }
    assert (Hr1 : shr_r r1 = Z.odd (Zpos p / 2 ^ 9)).
    { unfold r1. rewrite (shr_iter_r 9) by (simpl; lia). reflexivity. }
    pose proof (round_nearest_even_range r1) as Hrne.
    pose proof (round_nearest_even_up r1) as Hup.
    set (m1 := round_nearest_even (shr_m r1) (loc_of_shr_record r1)) in *.
    assert (Hq : 2 ^ 52 <= Zpos p / 2 ^ 10 < 2 ^ 53).
    { split; [apply Z.div_le_lower_bound|apply Z.div_lt_upper_bound]; lia. }
    assert (Hno : m1 < 2 ^ 53).
    { destruct (Z_lt_le_dec m1 (2 ^ 53)) as [|Hc]; [assumption|exfalso].
      assert (Hodd : Z.odd (Zpos p / 2 ^ 9) = true).
      { rewrite <- Hr1. apply Hup. lia. }
      assert (Hq10 : Zpos p / 2 ^ 10 = 2 ^ 53 - 1) by lia.
      rewrite Z.odd_spec in Hodd. destruct Hodd as [a Ha].
      pose proof (Z.div_mod (Zpos p) (2 ^ 9) ltac:(lia)) as E9.
      pose proof (Z.mod_pos_bound (Zpos p) (2 ^ 9) ltac:(lia)) as B9.
      pose proof (Z.div_mod (Zpos p) (2 ^ 10) ltac:(lia)) as E10.
      pose proof (Z.mod_pos_bound (Zpos p) (2 ^ 10) ltac:(lia)) as B10.
      lia. }
    destruct m1 as [|p1|p1] eqn:E1; [lia| |lia].
    assert (Hd1 : Zpos (digits2_pos p1) = 53) by (apply digits2_pos_unique; lia).
    exists p1, 10. split; [|repeat split; lia].
    simpl Zdigits2. rewrite Hd1.
    change (fexp Float64.prec Float64.emax (53 + 10) - 10) with 0.
    reflexivity.
Qed.

(** X5: below [2^63 - 512] the number read for the decimal numeral of [n]
    is below [2^63], so that its conversion to [int64] is in range, and
    [ParseSize] returns the integer [n] exactly when binary64 holds [n];
    the other integers come back changed. *)
Theorem ParseSize_integer_exact_iff (n : Z) :
  0 <= n < 2 ^ 63 - 512 ->
  (exists z,
     Float64.trunc (fst (strconv.ParseFloat (strconv.Itoa n))) = Some z /\
     0 <= z < 2 ^ 63 /\ ParseSize (strconv.Itoa n) = (z, None)) /\
  (ParseSize (strconv.Itoa n) = (n, None) <-> representable n).
Proof.
  intros Hn.
  pose proof (ParseSize_shape "" (strconv.Itoa n) "" "" ""
                blank_nil blank_nil (Itoa_is_decimal n ltac:(lia)) eq_refl eq_refl) as H.
  rewrite app_empty_l, !app_empty_r in H. rewrite H. clear H. unfold convert.
  destruct n as [|p|p]; try lia.
  { split; [exists 0; repeat split; lia|].
    split; [|reflexivity]. intros _. exists 0, 0. repeat split; lia. }
  rewrite ParseFloat_Itoa_pos.
  destruct (of_int_below_max p ltac:(lia)) as (mf & ef & Hf & Hmf & Hef & Hbig).
  rewrite Hf. cbn [Float64.ltb SFltb SFcompare Float64.zero String.eqb fst].
  assert (Hz : exists z, Z.shiftl (Zpos mf) ef = z /\ 0 <= z < 2 ^ 63).
  { eexists; split; [reflexivity|].
    destruct (Z_le_gt_dec 0 ef) as [Hpos|Hneg].
    - rewrite Z.shiftl_mul_pow2 by lia.
      assert (0 < 2 ^ ef <= 2 ^ 10)
        by (split; [apply pow2_pos; lia|apply Z.pow_le_mono_r; lia]).
      nia.
    - rewrite Z.shiftl_div_pow2 by lia.
      assert (0 < 2 ^ (- ef)) by (apply pow2_pos; lia).
      split; [apply Z.div_pos; lia|].
      apply Z.div_lt_upper_bound; [lia|]. nia. }
  destruct Hz as (z & Hz & Hrange).
  assert (Hconv : Float64.to_int64 (S754_finite false mf ef) = z).
  { unfold Float64.to_int64, Float64.trunc, cond_Zopp. rewrite Hz. unfold in_int64.
    destruct (Z.leb_spec (- 2 ^ 63) z); [|lia].
    destruct (Z.ltb_spec z (2 ^ 63)); [reflexivity|lia]. }
  rewrite Hconv. split.
  { exists z. unfold Float64.trunc, cond_Zopp. rewrite Hz. auto. }
  split.
  - intros Heq. injection Heq as Heq. rewrite Heq in Hz.
    destruct (Z_lt_le_dec (Zpos p) (2 ^ 53)) as [Hsmall|Hlarge].
    { exists (Zpos p), 0. repeat split; lia. }
    pose proof (digits_above p 53 ltac:(lia) Hlarge) as Hd.
    specialize (Hbig ltac:(lia)).
    rewrite Z.shiftl_mul_pow2 in Hz by lia.
    exists (Zpos mf), ef. repeat split; lia.
  - intros Hrep. destruct (representable_represents p Hrep) as (mr & er & Hr).
    pose proof (represents_digits _ _ _ Hr) as Hdr.
    pose proof (digits_below p 63 ltac:(lia) ltac:(lia)) as Hd.
    rewrite (of_int_represents mr er (Zpos p) Hr) in Hf by lia.
    injection Hf as <- <-.
    rewrite (to_int64_represents mr er (Zpos p) Hr) in Hconv by lia.
    now rewrite <- Hconv.
Qed.

Lemma ParseSize_integer_exact_iff_witness :
  0 <= 2 ^ 60 < 2 ^ 63 - 512 /\
  ((exists z,
     Float64.trunc (fst (strconv.ParseFloat (strconv.Itoa (2 ^ 60)))) = Some z /\
     0 <= z < 2 ^ 63 /\ ParseSize (strconv.Itoa (2 ^ 60)) = (z, None)) /\
   (ParseSize (strconv.Itoa (2 ^ 60)) = (2 ^ 60, None) <-> representable (2 ^ 60))).
Proof.
  split; [lia|]. apply (ParseSize_integer_exact_iff (2 ^ 60)). lia.
Defined.

(* ================================================================= *)
(** ** Numbers with decimals *)














(* ================================================================= *)
(** ** White space and the errors of the format *)

(** Nothing is removed from a string that does not begin with white space. *)
Lemma trim_head_fixed b (s : string) :
  starts_space b s = false -> strings.trim_head b s = s.
Proof.
  destruct s as [|c1 [|c2 [|c3 r3]]]; simpl; try reflexivity.
  - now intros ->%orb_false_elim%proj1.
  - intros [-> [-> _]%orb_false_elim]%orb_false_elim. reflexivity.
  - intros [-> [-> ->]%orb_false_elim]%orb_false_elim. reflexivity.
Qed.

(** What [trim_head] leaves is the end of its argument and does not begin
    with white space. *)
Lemma trim_head_spec b (n : nat) :
  forall s : string, (String.length s <= n)%nat ->
  starts_space b (strings.trim_head b s) = false /\
  exists w, s = w ++ strings.trim_head b s.
Proof.
  induction n as [|n IH]; intros s Hlen.
  { destruct s; [|simpl in Hlen; lia]. split; [reflexivity|now exists ""]. }
  destruct s as [|c1 r1]; [split; [reflexivity|now exists ""]|].
  simpl in Hlen. cbn [strings.trim_head].
  destruct (strings.asciiSpace c1) eqn:H1.
  { destruct (IH r1 ltac:(lia)) as [Hs [w Hw]]. split; [assumption|].
    exists (String c1 w). now rewrite app_cons, <- Hw. }
  destruct r1 as [|c2 r2].
  { split; [simpl; now rewrite H1|now exists ""]. }
  simpl in Hlen.
  destruct (if b then strings.space2 c2 c1 else strings.space2 c1 c2) eqn:H2.
  { destruct (IH r2 ltac:(lia)) as [Hs [w Hw]]. split; [assumption|].
    exists (String c1 (String c2 w)). now rewrite !app_cons, <- Hw. }
  destruct r2 as [|c3 r3].
  { split; [simpl; now rewrite H1, H2|now exists ""]. }
  simpl in Hlen.
  destruct (if b then strings.space3 c3 c2 c1 else strings.space3 c1 c2 c3) eqn:H3.
  { destruct (IH r3 ltac:(lia)) as [Hs [w Hw]]. split; [assumption|].
    exists (String c1 (String c2 (String c3 w))). now rewrite !app_cons, <- Hw. }
  split; [simpl; now rewrite H1, H2, H3|now exists ""].
Qed.

(** A string that does not begin with white space has no prefix that
    does. *)
Lemma starts_space_prefix (y w : string) :
  starts_space false (y ++ w) = false -> starts_space false y = false.
Proof.
  destruct y as [|c1 [|c2 [|c3 r3]]]; try reflexivity.
  - rewrite app_cons, app_empty_l. simpl.
    now intros [-> _]%orb_false_elim.
  - rewrite !app_cons, app_empty_l. simpl.
    intros [-> H]%orb_false_elim. destruct w; simpl in *.
    + assumption.
    + now apply orb_false_elim in H as [-> _].
  - rewrite !app_cons. simpl. trivial.
Qed.

(** Trimming twice is trimming once. *)
Lemma TrimSpace_idempotent (s : string) :
  strings.TrimSpace (strings.TrimSpace s) = strings.TrimSpace s.
Proof.
  unfold strings.TrimSpace.
  set (x := strings.trim_head false s).
  destruct (trim_head_spec false (String.length s) s (le_n _)) as [Hx _]. fold x in Hx.
  set (z := strings.trim_head true (String.rev x)).
  destruct (trim_head_spec true _ (String.rev x) (le_n _)) as [Hz [w Hw]]. fold z in Hz, Hw.
  assert (Ex : x = String.rev z ++ String.rev w).
  { now rewrite <- rev_append, <- Hw, rev_involutive_str. }
  rewrite Ex in Hx. apply starts_space_prefix in Hx.
  now rewrite (trim_head_fixed false _ Hx), rev_involutive_str,
    (trim_head_fixed true _ Hz).
Qed.

(** X8: [ParseSize] sees its input through [strings.TrimSpace] only, and
    trimming twice is trimming once: the result for a trimmed input is the
    result for the input, on every string. *)
Theorem ParseSize_TrimSpace (s : string) :
  ParseSize (strings.TrimSpace s) = ParseSize s.
Proof. unfold ParseSize. now rewrite TrimSpace_idempotent. Qed.

(** X9: [ParseSize] fails with the invalid-format error exactly when the
    trimmed input is not empty and is not a number (digits, or digits, a
    point and digits) followed by white space of the pattern and by
    letters; the error then carries the trimmed input. *)
Theorem ParseSize_InvalidFormat_iff (s : string) :
  (forall t, snd (ParseSize s) = Some (InvalidFormat t) -> t = strings.TrimSpace s) /\
  (snd (ParseSize s) = Some (InvalidFormat (strings.TrimSpace s)) <->
   strings.TrimSpace s <> "" /\
   ~ exists number ws letters : string,
       strings.TrimSpace s = number ++ ws ++ letters /\
       is_decimal number /\
       all_chars regexp.isSpace ws = true /\
       all_chars regexp.isLetter letters = true).
Proof.
  unfold ParseSize. set (t := strings.TrimSpace s).
  destruct (String.eqb_spec t "") as [E|E].
  { split; [discriminate|]. split; [discriminate|]. now intros [H _]. }
  destruct (regexp.FindStringSubmatch t) as [l|] eqn:Hm.
  - assert (Hno : forall t',
      snd (match strconv.ParseFloat (nth 1 l "") with
           | (_, Some _) => (0, Some (InvalidNumber (nth 1 l "")))
           | (number, None) =>
               if Float64.ltb number Float64.zero
               then (0, Some (NegativeSize number))
               else if String.eqb (strings.ToLower (nth 2 l "")) ""
               then (Float64.to_int64 number, None)
               else
                 match unitMap !! strings.ToLower (nth 2 l "") with
                 | None => (0, Some (UnknownUnit (strings.ToLower (nth 2 l ""))))
                 | Some multiplier =>
                     if Float64.gtb
                          (Float64.mul number (Float64.of_int multiplier))
                          (Float64.of_int max_int64)
                     then (0, Some (Overflow t))
                     else (Float64.to_int64
                             (Float64.mul number (Float64.of_int multiplier)), None)
                 end
           end) <> Some (InvalidFormat t')).
    { intros t'.
      destruct (strconv.ParseFloat _) as [number [err|]]; [discriminate|].
      destruct (Float64.ltb _ _); [discriminate|].
      destruct (String.eqb _ ""); [discriminate|].
      destruct (unitMap !! _); [|discriminate].
      destruct (Float64.gtb _ _); discriminate. }
    split; [intros t' H; now apply Hno in H|].
    split; [intros H; now apply Hno in H|].
    intros [_ Hnot]. exfalso. apply Hnot.
    destruct (FindStringSubmatch_spec t l Hm) as (number & ws & letters & _ & H).
    now exists number, ws, letters.
  - split; [now intros t' [= <-]|]. split; [|reflexivity].
    intros _. split; [assumption|].
    intros (number & ws & letters & Ht & Hn & Hw & Hl).
    rewrite Ht, (FindStringSubmatch_complete number ws letters Hn Hw Hl) in Hm.
    discriminate.
Qed.

(** X10: a number that [strconv.ParseFloat] accepts, followed by letters that
    are not a key of [unitMap] once in lower case, fails with the
    unknown-unit error, which carries the letters in lower case. *)
Theorem ParseSize_UnknownUnit (pre number ws letters post : string) :
  blank pre -> blank post -> is_decimal number ->
  all_chars regexp.isSpace ws = true ->
  all_chars regexp.isLetter letters = true -> letters <> "" ->
  snd (strconv.ParseFloat number) = None ->
  unitMap !! strings.ToLower letters = None ->
  ParseSize (pre ++ number ++ ws ++ letters ++ post)
  = (0, Some (UnknownUnit (strings.ToLower letters))).
Proof.
  intros Hpre Hpost Hnumber Hws Hletters Hne Hf Hunit.
  rewrite ParseSize_shape by assumption. unfold convert.
  pose proof (ParseFloat_decimal_not_negative number Hnumber) as Hsign.
  destruct (strconv.ParseFloat number) as [f [err|]]; [discriminate|].
  simpl in Hsign. rewrite Hsign, Hunit.
  destruct letters as [|l ls]; [contradiction|]. reflexivity.
Qed.

Lemma ParseSize_UnknownUnit_witness :
  blank " " /\ blank "" /\ is_decimal "1" /\
  all_chars regexp.isSpace "" = true /\
  all_chars regexp.isLetter "ZiB" = true /\ "ZiB" <> "" /\
  snd (strconv.ParseFloat "1") = None /\
  unitMap !! strings.ToLower "ZiB" = None /\
  ParseSize (" " ++ "1" ++ "" ++ "ZiB" ++ "")
  = (0, Some (UnknownUnit (strings.ToLower "ZiB"))).
Proof.
  assert (H1 : blank " ") by (apply blank_ascii; [reflexivity|apply blank_nil]).
  assert (H2 : is_decimal "1").
  { exists "1". split; [discriminate|]. split; [reflexivity|now left]. }
  assert (H3 : unitMap !! strings.ToLower "ZiB" = None) by (vm_compute; reflexivity).
  split; [exact H1|]. split; [apply blank_nil|]. split; [exact H2|].
  split; [reflexivity|]. split; [reflexivity|]. split; [discriminate|].
  split; [reflexivity|]. split; [exact H3|].
  apply (ParseSize_UnknownUnit " " "1" "" "ZiB" "");
    first [assumption | apply blank_nil | reflexivity | discriminate].
Defined.

(* ================================================================= *)
(** ** The sign of the result *)

(** Rounding a magnitude with a positive sign gives no sign bit. *)
Lemma binary_round_aux_unsigned (q e : Z) (l : location) :
  unsigned (binary_round_aux Float64.prec Float64.emax false q e l).
Proof.
  unfold binary_round_aux.
  destruct (shr_fexp _ _ q e l) as [mrs' e'].
  destruct (shr_fexp _ _ _ e' loc_Exact) as [mrs'' e''].
  destruct (shr_m mrs''); simpl; auto.
  now destruct (e'' <=? Float64.emax - Float64.prec).
Qed.

(** Neither does reading a number, *)
Lemma ParseFloat_unsigned (s : string) : unsigned (fst (strconv.ParseFloat s)).
Proof.
  unfold strconv.ParseFloat.
  destruct (strconv.read_decimal s) as [[[|n|n] k]|]; try reflexivity.
  unfold Float64.of_ratio.
  destruct (SFdiv_core_binary _ _ _ _ _ _) as [[q e] l].
  pose proof (binary_round_aux_unsigned q e l) as H.
  destruct (binary_round_aux _ _ _ _ _ _); exact H.
Qed.

(** nor multiplying by a positive number. *)
Lemma mul_unsigned (x : float64) (m : positive) (e : Z) :
  unsigned x -> unsigned (Float64.mul x (S754_finite false m e)).
Proof.
  destruct x as [s|s| |s mx ex]; simpl; intros H; try exact I; subst;
    try reflexivity.
  apply binary_round_aux_unsigned.
Qed.

(** The conversion of such a number is not negative, unless it is out of range. *)
Lemma to_int64_unsigned (f : float64) :
  unsigned f -> 0 <= Float64.to_int64 f \/ Float64.to_int64 f = - 2 ^ 63.
Proof.
  unfold Float64.to_int64, Float64.int64_indefinite.
  destruct f as [s|s| |s m e]; simpl; intros H; subst; try (right; reflexivity).
  - left. reflexivity.
  - destruct (in_int64 _); [left|right; reflexivity].
    apply Z.shiftl_nonneg. lia.
Qed.

(** X11: the value [ParseSize] returns is never negative, except for
    [-2^63], the value of a conversion to [int64] that is out of range. *)
Theorem ParseSize_not_negative (s : string) :
  0 <= fst (ParseSize s) \/ fst (ParseSize s) = - 2 ^ 63.
Proof.
  assert (H0 : 0 <= 0 \/ 0 = - 2 ^ 63) by (left; lia).
  unfold ParseSize.
  destruct (String.eqb _ ""); [exact H0|].
  destruct (regexp.FindStringSubmatch _) as [matches|]; [|exact H0].
  pose proof (ParseFloat_unsigned (nth 1 matches "")) as Hu.
  destruct (strconv.ParseFloat _) as [number [err|]]; [exact H0|].
  simpl in Hu.
  destruct (Float64.ltb _ _); [exact H0|].
  destruct (String.eqb _ ""); [now apply to_int64_unsigned|].
  destruct (unitMap !! _) as [m|] eqn:Hm; [|exact H0].
  destruct (unitMap_represents _ _ Hm) as (mm & em & _ & _ & ->).
  destruct (Float64.gtb _ _); [exact H0|].
  simpl fst. apply to_int64_unsigned. now apply mul_unsigned.
Qed.

(* ================================================================= *)
(** ** The number [FormatSize] prints *)

(** Rounding a quotient does not depend on a common factor. *)
Lemma round_half_even_scale (c num den : Z) :
  0 < c -> 0 < den ->
  fmt.round_half_even (num * c) (den * c) = fmt.round_half_even num den.
Proof.
  intros Hc Hd. unfold fmt.round_half_even.
  rewrite Z.div_mul_cancel_r, Z.mul_mod_distr_r by lia.
  replace (2 * (num mod den * c)) with (2 * (num mod den) * c) by lia.
  set (r := num mod den).
  destruct (Z.compare_spec (2 * r * c) (den * c));
    destruct (Z.compare_spec (2 * r) den); try reflexivity; nia.
Qed.

(** Rounding an exact quotient. *)
Lemma round_half_even_whole (n den : Z) :
  0 < den -> fmt.round_half_even (n * den) den = n.
Proof.
  intros Hd. unfold fmt.round_half_even.
  rewrite Z.div_mul, Z.mod_mul by lia.
  destruct (Z.compare_spec (2 * 0) den); lia.
Qed.

(** The rounded quotient is within half a unit of the quotient. *)
Lemma round_half_even_error (num den : Z) :
  0 < den -> 2 * Z.abs (fmt.round_half_even num den * den - num) <= den.
Proof.
  intros Hd. unfold fmt.round_half_even.
  pose proof (Z.div_mod num den ltac:(lia)) as E.
  pose proof (Z.mod_pos_bound num den Hd) as B.
  set (q := num / den) in *. set (r := num mod den) in *.
  destruct (Z.compare_spec (2 * r) den); [destruct (Z.even q)| |]; lia.
Qed.

(** The comparison of positive normal numbers, by exponent then mantissa. *)
Lemma geb_spec (m mc : positive) (e ec : Z) :
  Float64.geb (S754_finite false m e) (S754_finite false mc ec) = true <->
  ec < e \/ ec = e /\ Zpos mc <= Zpos m.
Proof.
  unfold Float64.geb, SFleb, SFcompare.
  destruct (Z.compare_spec ec e) as [->|Hlt|Hgt].
  - change (Pos.compare_cont Eq mc m) with (Pos.compare mc m).
    destruct (Pos.compare_spec mc m); split; intros; try lia; try reflexivity;
      discriminate.
  - split; [lia|reflexivity].
  - split; [discriminate|lia].
Qed.

(** The unit of the loop: the one whose multiplier the count reaches without
    reaching 1024 of it, or [PiB] from [2^50] on. *)
Lemma FormatSize_in_unit (b : Z) (u : formatUnit) :
  In u units -> multiplier u <= b ->
  (forall u', In u' units -> multiplier u' <= b -> multiplier u' <= multiplier u) ->
  FormatSize b = format_in b u.
Proof.
  intros Hin Hle Hmax. destruct units_sizes as (HP & HT & HG & HM & HK).
  assert (HK' : KiB <= b).
  { revert Hin Hle. simpl. intros [<-|[<-|[<-|[<-|[<-|[]]]]]]; cbn [multiplier]; lia. }
  unfold FormatSize.
  destruct (Z.ltb_spec b 0) as [|_]; [lia|].
  destruct (Z.ltb_spec b KiB) as [|_]; [lia|].
  assert (Hsel : forall u', In u' units -> multiplier u < multiplier u' -> b < multiplier u').
  { intros u' Hu' Hlt. destruct (Z_lt_le_dec b (multiplier u')) as [|Hge]; [assumption|].
    specialize (Hmax u' Hu' Hge). lia. }
  pose proof (Hsel _ (or_introl eq_refl)) as S5.
  pose proof (Hsel _ (or_intror (or_introl eq_refl))) as S4.
  pose proof (Hsel _ (or_intror (or_intror (or_introl eq_refl)))) as S3.
  pose proof (Hsel _ (or_intror (or_intror (or_intror (or_introl eq_refl))))) as S2.
  clear Hsel Hmax. cbn [multiplier] in S5, S4, S3, S2.
  revert Hin Hle S5 S4 S3 S2. unfold units. cbn [In format_loop multiplier].
  intros [<-|[<-|[<-|[<-|[<-|[]]]]]]; cbn [multiplier]; intros Hle S5 S4 S3 S2.
  all: repeat match goal with
       | |- context [Z.leb ?x ?y] => destruct (Z.leb_spec x y); try lia
       end; reflexivity.
Qed.

(** A byte count [b] below [2^53], between one and 1024 of the unit
    [u]. *)
Section ExactValue.

Variable b : Z.
Variable u : formatUnit.
Hypothesis Hin : In u units.
Hypothesis Hlo : multiplier u <= b.
Hypothesis Hhi : b < 1024 * multiplier u.
Hypothesis Hexact : b < 2 ^ 53.

(** The value is the exact quotient, and the comparisons and the printed
    digits are those of the quotient. *)
Lemma unit_value_exact :
  exists m e,
    unit_value b u = S754_finite false m e /\
    2 ^ 52 <= Zpos m < 2 ^ 53 /\ -52 <= e <= -43 /\
    (forall c, c * multiplier u <= b <-> c * 2 ^ (- e) <= Zpos m) /\
    (forall p, fmt.round_half_even (Zpos m * 10 ^ Z.of_nat p) (2 ^ (- e))
               = fmt.round_half_even (b * 10 ^ Z.of_nat p) (multiplier u)).
Proof using Hin Hlo Hhi Hexact.
  destruct (units_pow2 u Hin) as (j & Hj & Hmul & Hu).
  unfold unit_value. rewrite Hu. rewrite Hmul in *. clear Hu.
  assert (HX : 0 < 2 ^ (10 * j)) by (apply pow2_pos; lia).
  destruct b as [|p|p]; [lia| |lia].
  destruct (of_int_exact p Hexact) as (m & e & Hf & Hdm & He & Hm).
  pose proof (digits2_pos_bounds m) as Hmb. rewrite Hdm in Hmb. simpl in Hmb.
  pose proof (digits_above p (10 * j) ltac:(lia) Hlo) as Hd1.
  assert (Hhi' : Zpos p < 2 ^ (10 + 10 * j)).
  { rewrite Z.pow_add_r by lia. exact Hhi. }
  pose proof (digits_below p (10 + 10 * j) ltac:(lia) Hhi') as Hd2.
  pose proof (digits_below p 53 ltac:(lia) Hexact) as Hd3.
  exists m, (e - (10 * j - 52) - 52).
  rewrite Hf, div_pow2 by lia.
  assert (HY : 0 < 2 ^ (- e)) by (apply pow2_pos; lia).
  assert (Hsplit : 2 ^ (- (e - (10 * j - 52) - 52)) = 2 ^ (10 * j) * 2 ^ (- e)).
  { rewrite <- Z.pow_add_r by lia. f_equal. lia. }
  rewrite Hsplit.
  set (X := 2 ^ (10 * j)) in *. set (Y := 2 ^ (- e)) in *.
  split; [reflexivity|]. split; [lia|]. split; [lia|]. split.
  - intros c. rewrite Hm.
    replace (c * (X * Y)) with (c * X * Y) by lia.
    apply Z.mul_le_mono_pos_r. exact HY.
  - intros q. rewrite Hm.
    replace (Zpos p * Y * 10 ^ Z.of_nat q) with (Zpos p * 10 ^ Z.of_nat q * Y) by lia.
    apply round_half_even_scale; lia.
Qed.

Lemma format_in_exact :
  format_in b u =
    fmt.fixed (decimals b (multiplier u))
      (fmt.round_half_even (b * 10 ^ Z.of_nat (decimals b (multiplier u)))
         (multiplier u))
    ++ " " ++ name u.
Proof using Hin Hlo Hhi Hexact.
  destruct unit_value_exact as (m & e & Hv & Hm & He & Hcmp & Hdig).
  unfold format_in, decimals. rewrite Hv, of_int_100, of_int_10.
  pose proof (Hcmp 100) as H100. pose proof (Hcmp 10) as H10.
  assert (Hcases : e = -52 \/ e = -51 \/ e = -50 \/ e = -49 \/ e = -48 \/
                   e = -47 \/ e = -46 \/ e = -45 \/ e = -44 \/ e = -43) by lia.
  destruct (Z.leb_spec (100 * multiplier u) b) as [L100|L100].
  - assert (G : Float64.geb (S754_finite false m e)
                  (S754_finite false 7036874417766400 (-46)) = true).
    { apply geb_spec.
      repeat (destruct Hcases as [->|Hcases]); try subst e; simpl in H100; lia. }
    rewrite G, Sprintf_f_finite, Hdig by lia. reflexivity.
  - assert (G : Float64.geb (S754_finite false m e)
                  (S754_finite false 7036874417766400 (-46)) = false).
    { apply not_true_is_false. rewrite geb_spec.
      repeat (destruct Hcases as [->|Hcases]); try subst e; simpl in H100; lia. }
    rewrite G. destruct (Z.leb_spec (10 * multiplier u) b) as [L10|L10].
    + assert (G' : Float64.geb (S754_finite false m e)
                  (S754_finite false 5629499534213120 (-49)) = true).
      { apply geb_spec.
        repeat (destruct Hcases as [->|Hcases]); try subst e; simpl in H10; lia. }
      rewrite G', Sprintf_f_finite, Hdig by lia. reflexivity.
    + assert (G' : Float64.geb (S754_finite false m e)
                  (S754_finite false 5629499534213120 (-49)) = false).
      { apply not_true_is_false. rewrite geb_spec.
        repeat (destruct Hcases as [->|Hcases]); try subst e; simpl in H10; lia. }
      rewrite G', Sprintf_f_finite, Hdig by lia. reflexivity.
Qed.

End ExactValue.

(** The unit of a byte count between one and 1024 of it. *)
Lemma FormatSize_unit_chosen (b : Z) (u : formatUnit) :
  In u units -> multiplier u <= b < 1024 * multiplier u ->
  FormatSize b = format_in b u.
Proof.
  intros Hin [Hlo Hhi].
  apply FormatSize_in_unit; try assumption.
  intros u' Hu' Hle.
  destruct (units_pow2 u Hin) as (j & Hj & Hmul & _).
  destruct (units_pow2 u' Hu') as (j' & Hj' & Hmul' & _).
  rewrite Hmul, Hmul' in *.
  apply Z.pow_le_mono_r; [lia|].
  destruct (Z_le_gt_dec (10 * j') (10 * j)) as [|Hgt]; [assumption|exfalso].
  assert (2 ^ (10 + 10 * j) <= 2 ^ (10 * j')) by (apply Z.pow_le_mono_r; lia).
  rewrite Z.pow_add_r in H by lia. lia.
Qed.

(** X12: for a byte count [b] below [2^53] that is at least one and less
    than 1024 of a unit, [FormatSize] prints the quotient of [b] by the
    unit, rounded half to even to two decimals below 10 units, to one below
    100 units and to none from there, as integer arithmetic gives them:
    the floating-point division and comparisons lose nothing. *)
Theorem FormatSize_exact (b : Z) (u : formatUnit) :
  In u units -> multiplier u <= b < 1024 * multiplier u -> b < 2 ^ 53 ->
  FormatSize b =
    fmt.fixed (decimals b (multiplier u))
      (fmt.round_half_even (b * 10 ^ Z.of_nat (decimals b (multiplier u)))
         (multiplier u))
    ++ " " ++ name u.
Proof.
  intros Hin Hrange Hb.
  rewrite (FormatSize_unit_chosen b u Hin Hrange).
  apply format_in_exact; tauto.
Qed.

Lemma FormatSize_exact_witness :
  In {| name := "KiB"; multiplier := KiB |} units /\
  KiB <= 1536 < 1024 * KiB /\ 1536 < 2 ^ 53 /\
  FormatSize 1536 = "1.50 KiB".
Proof.
  assert (H1 : In {| name := "KiB"; multiplier := KiB |} units)
    by (simpl; tauto).
  assert (H2 : KiB <= 1536 < 1024 * KiB) by (unfold KiB, Byte; lia).
  assert (H3 : 1536 < 2 ^ 53) by lia.
  split; [exact H1|]. split; [exact H2|]. split; [exact H3|].
  exact (FormatSize_exact 1536 {| name := "KiB"; multiplier := KiB |} H1 H2 H3).
Defined.

(** X13: the number printed can be 1024: a byte count below [2^53] that is
    within half a unit below 1024 units is printed as 1024 of the unit,
    not as 1.00 of the next one. *)
Theorem FormatSize_shows_1024 (b : Z) (u : formatUnit) :
  In u units -> 2047 * multiplier u <= 2 * b -> b < 1024 * multiplier u ->
  b < 2 ^ 53 ->
  FormatSize b = "1024 " ++ name u.
Proof.
  intros Hu Hlo Hhi Hb.
  destruct (units_pow2 u Hu) as (j & Hj & Hmul & _).
  assert (HX : 0 < multiplier u) by (rewrite Hmul; apply pow2_pos; lia).
  rewrite (FormatSize_unit_chosen b u Hu), (format_in_exact b u Hu) by lia.
  unfold decimals. destruct (Z.leb_spec (100 * multiplier u) b) as [_|]; [|lia].
  change (10 ^ Z.of_nat 0) with 1. rewrite Z.mul_1_r.
  assert (Hr : fmt.round_half_even b (multiplier u) = 1024).
  { unfold fmt.round_half_even.
    assert (Hq : b / multiplier u = 1023).
    { symmetry. apply Z.div_unique with (b - 1023 * multiplier u); lia. }
    assert (Hm : b mod multiplier u = b - 1023 * multiplier u).
    { symmetry. apply Z.mod_unique with 1023; lia. }
    rewrite Hq, Hm.
    destruct (Z.compare_spec (2 * (b - 1023 * multiplier u)) (multiplier u));
      [reflexivity|lia|reflexivity]. }
  rewrite Hr. reflexivity.
Qed.

Lemma FormatSize_shows_1024_witness :
  In {| name := "KiB"; multiplier := KiB |} units /\
  2047 * KiB <= 2 * 1048575 /\ 1048575 < 1024 * KiB /\ 1048575 < 2 ^ 53 /\
  FormatSize 1048575 = "1024 " ++ "KiB".
Proof.
  assert (H1 : In {| name := "KiB"; multiplier := KiB |} units)
    by (simpl; tauto).
  assert (H2 : 2047 * KiB <= 2 * 1048575) by (unfold KiB, Byte; lia).
  assert (H3 : 1048575 < 1024 * KiB) by (unfold KiB, Byte; lia).
  split; [exact H1|]. split; [exact H2|]. split; [exact H3|]. split; [lia|].
  apply (FormatSize_shows_1024 1048575 {| name := "KiB"; multiplier := KiB |} H1 H2 H3).
  lia.
Defined.

(** The length of an append. *)
Lemma length_app_str (s t : string) :
  String.length (s ++ t) = (String.length s + String.length t)%nat.
Proof.
  induction s as [|c s IH]; [now rewrite app_empty_l|].
  rewrite app_cons. simpl. now rewrite IH.
Qed.

(** What the check of the widths gives. *)
Lemma fixed_width_spec (p : nat) (hi : Z) (w : nat) (scaled : Z) :
  fixed_width p hi w = true -> 0 <= scaled <= hi ->
  (String.length (fmt.fixed p scaled) <= w)%nat.
Proof.
  unfold fixed_width. rewrite forallb_forall. intros H Hs.
  specialize (H (Z.to_nat scaled) ltac:(apply in_seq; lia)).
  rewrite Z2Nat.id in H by lia. now apply Nat.leb_le in H.
Qed.

(** Four digits before the point without decimals, five characters with them. *)
Lemma fixed_width_true :
  fixed_width 0 8192 4 = true /\ fixed_width 1 1000 5 = true /\
  fixed_width 2 1000 5 = true.
Proof. split; [|split]; vm_compute; reflexivity. Qed.

(** X14: the output of [FormatSize] has between 3 and 9 characters, for
    every [int64]. *)
Theorem FormatSize_length (b : Z) :
  is_int64 b -> (3 <= String.length (FormatSize b) <= 9)%nat.
Proof.
  intros [Hlo Hhi]. destruct fixed_width_true as (W0 & W1 & W2).
  destruct (Z_lt_le_dec b 1024) as [Hsmall|Hbig].
  - unfold FormatSize. destruct (Z.ltb_spec b 0); [simpl; lia|].
    destruct (Z.ltb_spec b KiB) as [_|H']; [|unfold KiB, Byte in H'; lia].
    rewrite <- fixed_whole, length_app_str.
    pose proof (fixed_width_spec 0 8192 4 b W0 ltac:(lia)).
    assert (1 <= String.length (fmt.fixed 0 b))%nat.
    { rewrite fixed_whole. destruct b as [|p|p]; [simpl; lia| |lia].
      destruct (Itoa_pos_digits p) as (c & r & -> & _). simpl. lia. }
    simpl String.length. lia.
  - destruct (format_loop_select b ltac:(lia)) as (u & Hu & Hloop & Hrange & _).
    unfold FormatSize. destruct (Z.ltb_spec b 0); [lia|].
    destruct (Z.ltb_spec b KiB) as [H'|_]; [unfold KiB, Byte in H'; lia|].
    rewrite Hloop.
    destruct (format_in_cases b u Hu Hrange) as (p & scaled & -> & Hcases).
    rewrite !length_app_str.
    assert (Hname : String.length (name u) = 3%nat).
    { revert Hu. simpl. intros [<-|[<-|[<-|[<-|[<-|[]]]]]]; reflexivity. }
    rewrite Hname. simpl (String.length " ").
    destruct Hcases as [[-> Hs]|[[->| ->] Hs]].
    + pose proof (fixed_width_spec 0 8192 4 scaled W0 ltac:(lia)).
      lia.
    + pose proof (fixed_width_spec 1 1000 5 scaled W1 ltac:(lia)).
      lia.
    + pose proof (fixed_width_spec 2 1000 5 scaled W2 ltac:(lia)).
      lia.
Qed.

Lemma FormatSize_length_witness :
  is_int64 10485759 /\ (3 <= String.length (FormatSize 10485759) <= 9)%nat.
Proof.
  assert (H : is_int64 10485759) by (unfold is_int64; lia).
  split; [exact H|]. apply (FormatSize_length 10485759 H).
Defined.

(** X15: the loop of [FormatSize] finds a unit for every byte count from one
    kibibyte on, so that the return after the loop is never reached. *)
Theorem FormatSize_loop_finds_unit (b : Z) :
  KiB <= b -> format_loop b units <> None.
Proof.
  intros Hb. unfold units. cbn [format_loop multiplier].
  repeat match goal with
         | |- context [Z.leb ?x ?y] => destruct (Z.leb_spec x y); [discriminate|]
         end.
  lia.
Qed.

Lemma FormatSize_loop_finds_unit_witness :
  KiB <= 1024 /\ format_loop 1024 units <> None.
Proof.
  assert (H : KiB <= 1024) by (unfold KiB, Byte; lia).
  split; [exact H|]. apply (FormatSize_loop_finds_unit 1024 H).
Defined.

(* ================================================================= *)
(** ** [FormatSize] then [ParseSize]: the values *)

(** The check of the outputs with decimals, by evaluation. *)
Lemma outputs_close_true : outputs_close = true.
Proof. vm_compute. reflexivity. Qed.

(** What the check gives for one output. *)
Lemma outputs_close_spec (p : nat) (u : formatUnit) (scaled : Z) :
  In u units -> p = 1%nat \/ p = 2%nat -> 0 <= scaled <= 1000 ->
  scaled * multiplier u <= 2 ^ 53 * 10 ^ Z.of_nat p ->
  output_close p u scaled = true.
Proof.
  intros Hu Hp Hs Hle. pose proof outputs_close_true as H.
  unfold outputs_close in H. rewrite forallb_forall in H.
  specialize (H u Hu). rewrite forallb_forall in H.
  specialize (H p ltac:(destruct Hp as [->| ->]; simpl; tauto)). rewrite forallb_forall in H.
  specialize (H (Z.to_nat scaled) ltac:(apply in_seq; lia)).
  rewrite Z2Nat.id in H by lia.
  apply orb_true_iff in H as [H|H]; [|exact H].
  apply Z.ltb_lt in H. lia.
Qed.

(** A whole number of one of the units of [FormatSize]. *)
Lemma ParseSize_whole_output (n : Z) (u : formatUnit) :
  In u units -> 0 <= n < 2 ^ 53 -> n * multiplier u < 2 ^ 63 ->
  ParseSize (strconv.Itoa n ++ " " ++ name u) = (n * multiplier u, None).
Proof.
  intros Hu Hn Hlt.
  destruct (units_in_unitMap u Hu) as (Hletters & _ & _ & Hlook).
  destruct (units_pow2 u Hu) as (j & Hj & Hmul & _).
  assert (HX : 0 < multiplier u) by (rewrite Hmul; apply pow2_pos; lia).
  rewrite (whole_number_product n " " (name u) (multiplier u))
    by (auto using representable_small, representable_units; lia).
  destruct (Z.ltb_spec (2 ^ 63) (n * multiplier u)) as [|_]; [lia|].
  rewrite to_int64_of_int; [reflexivity|now apply representable_units|nia].
Qed.

(** Below a kibibyte the output is the numeral and [B]. *)
Lemma roundtrip_small (b : Z) :
  0 <= b < 1024 -> ParseSize (FormatSize b) = (b, None).
Proof.
  intros Hb. unfold FormatSize.
  destruct (Z.ltb_spec b 0) as [|_]; [lia|].
  destruct (Z.ltb_spec b KiB) as [_|H']; [|unfold KiB, Byte in H'; lia].
  change (strconv.Itoa b ++ " B") with (strconv.Itoa b ++ " " ++ "B").
  rewrite (whole_number_product b " " "B" 1); try reflexivity;
    try (apply representable_small; lia); try lia.
  rewrite Z.mul_1_r.
  destruct (Z.ltb_spec (2 ^ 63) b) as [|_]; [lia|].
  rewrite to_int64_of_int; [reflexivity|apply representable_small; lia|lia].
Qed.

(** Every count from a kibibyte to [2^53] is between one and 1024 of a unit. *)
Lemma unit_of_count (b : Z) :
  1024 <= b < 2 ^ 53 ->
  exists u, In u units /\ multiplier u <= b < 1024 * multiplier u.
Proof.
  intros Hb. destruct units_sizes as (HP & HT & HG & HM & HK).
  destruct (Z_lt_le_dec b (2 ^ 20));
    [|destruct (Z_lt_le_dec b (2 ^ 30));
      [|destruct (Z_lt_le_dec b (2 ^ 40));
        [|destruct (Z_lt_le_dec b (2 ^ 50))]]].
  - exists {| name := "KiB"; multiplier := KiB |}. simpl. split; [tauto|lia].
  - exists {| name := "MiB"; multiplier := MiB |}. simpl. split; [tauto|lia].
  - exists {| name := "GiB"; multiplier := GiB |}. simpl. split; [tauto|lia].
  - exists {| name := "TiB"; multiplier := TiB |}. simpl. split; [tauto|lia].
  - exists {| name := "PiB"; multiplier := PiB |}. simpl. split; [tauto|lia].
Qed.

(** X16: below one kibibyte [ParseSize] gives back the byte count that
    [FormatSize] printed, and 0 for a negative count. *)
Theorem ParseSize_FormatSize_bytes (b : Z) :
  b < 1024 -> ParseSize (FormatSize b) = (Z.max 0 b, None).
Proof.
  intros Hb. destruct (Z_lt_le_dec b 0) as [Hneg|Hnn].
  - unfold FormatSize. destruct (Z.ltb_spec b 0) as [_|]; [|lia].
    replace (Z.max 0 b) with 0 by lia. vm_compute. reflexivity.
  - rewrite roundtrip_small by lia. f_equal. lia.
Qed.

Lemma ParseSize_FormatSize_bytes_witness :
  1023 < 1024 /\ ParseSize (FormatSize 1023) = (Z.max 0 1023, None).
Proof.
  split; [lia|]. apply (ParseSize_FormatSize_bytes 1023). lia.
Defined.

(** X17: a whole number of units, from 1 to 1023 and below [2^53] bytes,
    goes through [FormatSize] and [ParseSize] unchanged. *)
Theorem ParseSize_FormatSize_whole (n : Z) (u : formatUnit) :
  In u units -> 1 <= n < 1024 -> n * multiplier u < 2 ^ 53 ->
  ParseSize (FormatSize (n * multiplier u)) = (n * multiplier u, None).
Proof.
  intros Hu Hn Hb.
  destruct (units_pow2 u Hu) as (j & Hj & Hmul & _).
  assert (HX : 0 < multiplier u) by (rewrite Hmul; apply pow2_pos; lia).
  rewrite (FormatSize_unit_chosen (n * multiplier u) u Hu),
    (format_in_exact (n * multiplier u) u Hu) by nia.
  set (p := decimals (n * multiplier u) (multiplier u)).
  replace (n * multiplier u * 10 ^ Z.of_nat p)
    with (n * 10 ^ Z.of_nat p * multiplier u) by lia.
  rewrite round_half_even_whole by lia.
  assert (Hp : p = 0%nat /\ 100 <= n \/ p = 1%nat /\ 10 <= n < 100
               \/ p = 2%nat /\ n < 10).
  { subst p. unfold decimals.
    destruct (Z.leb_spec (100 * multiplier u) (n * multiplier u)).
    - left. split; [reflexivity|nia].
    - destruct (Z.leb_spec (10 * multiplier u) (n * multiplier u)).
      + right; left. split; [reflexivity|nia].
      + right; right. split; [reflexivity|nia]. }
  clearbody p.
  destruct Hp as [[-> Hn']|[[-> Hn']|[-> Hn']]].
  - change (10 ^ Z.of_nat 0) with 1. rewrite Z.mul_1_r, fixed_whole.
    apply ParseSize_whole_output; try assumption; lia.
  - pose proof (outputs_close_spec 1 u (n * 10) Hu ltac:(now left) ltac:(lia)) as H.
    change (10 ^ Z.of_nat 1) with 10 in *.
    specialize (H ltac:(nia)). unfold output_close in H.
    destruct (ParseSize _) as [r [err|]]; [discriminate|].
    change (10 ^ Z.of_nat 1) with 10 in H. cbv zeta in H.
    apply andb_true_iff in H as [_ H].
    replace (n * 10 * multiplier u) with (n * multiplier u * 10) in H by lia.
    rewrite Z.mod_mul, Z.eqb_refl in H by lia. simpl in H.
    apply Z.eqb_eq in H. f_equal. lia.
  - pose proof (outputs_close_spec 2 u (n * 100) Hu ltac:(now right) ltac:(lia)) as H.
    change (10 ^ Z.of_nat 2) with 100 in *.
    specialize (H ltac:(nia)). unfold output_close in H.
    destruct (ParseSize _) as [r [err|]]; [discriminate|].
    change (10 ^ Z.of_nat 2) with 100 in H. cbv zeta in H.
    apply andb_true_iff in H as [_ H].
    replace (n * 100 * multiplier u) with (n * multiplier u * 100) in H by lia.
    rewrite Z.mod_mul, Z.eqb_refl in H by lia. simpl in H.
    apply Z.eqb_eq in H. f_equal. lia.
Qed.

Lemma ParseSize_FormatSize_whole_witness :
  In {| name := "GiB"; multiplier := GiB |} units /\
  1 <= 12 < 1024 /\ 12 * GiB < 2 ^ 53 /\
  ParseSize (FormatSize (12 * GiB)) = (12 * GiB, None).
Proof.
  assert (H1 : In {| name := "GiB"; multiplier := GiB |} units)
    by (simpl; tauto).
  assert (H2 : 12 * GiB < 2 ^ 53) by (unfold GiB, MiB, KiB, Byte; lia).
  split; [exact H1|]. split; [lia|]. split; [exact H2|].
  apply (ParseSize_FormatSize_whole 12 {| name := "GiB"; multiplier := GiB |} H1);
    [lia|exact H2].
Defined.

(** X18: for a byte count [b] from 0 to below [2^53], [ParseSize] accepts
    the output of [FormatSize] and returns a value that differs from [b] by
    at most half a percent of [b] and one byte. *)
Theorem ParseSize_FormatSize_close (b : Z) :
  0 <= b < 2 ^ 53 ->
  exists r, ParseSize (FormatSize b) = (r, None) /\ 200 * Z.abs (r - b) <= b + 200.
Proof.
  intros Hb. destruct (Z_lt_le_dec b 1024) as [Hsmall|Hbig].
  { exists b. rewrite roundtrip_small by lia. split; [reflexivity|lia]. }
  destruct (unit_of_count b ltac:(lia)) as (u & Hu & Hrange).
  rewrite (FormatSize_unit_chosen b u Hu Hrange), (format_in_exact b u Hu) by lia.
  pose proof (fun p => round_half_even_error (b * 10 ^ Z.of_nat p) (multiplier u)) as Herr.
  pose proof (fun p B => round_half_even_bounds (b * 10 ^ Z.of_nat p) (multiplier u) B)
    as Hbounds.
  pose proof (fun p s => outputs_close_spec p u s Hu) as Hclose.
  unfold output_close in Hclose.
  assert (Hwhole := fun n => ParseSize_whole_output n u Hu).
  unfold decimals.
  destruct units_sizes as (HP & HT & HG & HM & HK).
  assert (HX : multiplier u = 2 ^ 10 \/ multiplier u = 2 ^ 20 \/ multiplier u = 2 ^ 30
               \/ multiplier u = 2 ^ 40 \/ multiplier u = 2 ^ 50).
  { revert Hu. simpl. intros [<-|[<-|[<-|[<-|[<-|[]]]]]]; cbn [multiplier]; tauto. }
  set (X := multiplier u) in *.
  destruct (Z.leb_spec (100 * X) b) as [L100|L100];
    [|destruct (Z.leb_spec (10 * X) b) as [L10|L10]].
  - specialize (Herr 0%nat ltac:(lia)). specialize (Hbounds 0%nat 1024 ltac:(lia)).
    change (10 ^ Z.of_nat 0) with 1 in *. rewrite Z.mul_1_r in *.
    specialize (Hbounds ltac:(lia)).
    set (scaled := fmt.round_half_even b X) in *.
    rewrite fixed_whole, Hwhole by (try lia; nia).
    eexists; split; [reflexivity|]. lia.
  - specialize (Herr 1%nat ltac:(lia)). specialize (Hbounds 1%nat 1000 ltac:(lia)).
    change (10 ^ Z.of_nat 1) with 10 in *. specialize (Hbounds ltac:(lia)).
    set (scaled := fmt.round_half_even (b * 10) X) in *.
    specialize (Hclose 1%nat scaled ltac:(now left) ltac:(lia)).
    change (10 ^ Z.of_nat 1) with 10 in Hclose.
    specialize (Hclose ltac:(lia)).
    destruct (ParseSize _) as [r [err|]]; [discriminate|]. cbv zeta in Hclose.
    apply andb_true_iff in Hclose as [Hc _]. apply Z.leb_le in Hc.
    exists r. split; [reflexivity|]. lia.
  - specialize (Herr 2%nat ltac:(lia)).
    assert (Hs : 0 <= fmt.round_half_even (b * 10 ^ Z.of_nat 2) X <= 1000
                 /\ fmt.round_half_even (b * 10 ^ Z.of_nat 2) X * X <= 2 ^ 53 * 100).
    { change (10 ^ Z.of_nat 2) with 100.
      destruct HX as [HX|[HX|[HX|[HX|HX]]]].
      1-4: pose proof (Hbounds 2%nat 1000 ltac:(lia)) as Hb2;
           change (10 ^ Z.of_nat 2) with 100 in Hb2;
           specialize (Hb2 ltac:(lia)); lia.
      pose proof (Hbounds 2%nat 800 ltac:(lia)) as Hb2.
      change (10 ^ Z.of_nat 2) with 100 in Hb2.
      specialize (Hb2 ltac:(lia)). lia. }
    change (10 ^ Z.of_nat 2) with 100 in *.
    set (scaled := fmt.round_half_even (b * 100) X) in *.
    specialize (Hclose 2%nat scaled ltac:(now right) ltac:(lia)).
    change (10 ^ Z.of_nat 2) with 100 in Hclose.
    specialize (Hclose ltac:(lia)).
    destruct (ParseSize _) as [r [err|]]; [discriminate|]. cbv zeta in Hclose.
    apply andb_true_iff in Hclose as [Hc _]. apply Z.leb_le in Hc.
    exists r. split; [reflexivity|]. lia.
Qed.

Lemma ParseSize_FormatSize_close_witness :
  0 <= 123456789 < 2 ^ 53 /\
  exists r, ParseSize (FormatSize 123456789) = (r, None) /\
            200 * Z.abs (r - 123456789) <= 123456789 + 200.
Proof.
  split; [lia|]. apply (ParseSize_FormatSize_close 123456789). lia.
Defined.

(* ================================================================= *)
(** ** The tests of the package *)

(** X19: [TestParseSize] passes: no case of its table reports a failure. *)
Theorem TestParseSize_passes : TestParseSize = [].
Proof. vm_compute. reflexivity. Qed.

(** X20: [TestParseSize_SpecificExamples] passes. *)
Theorem TestParseSize_SpecificExamples_passes : TestParseSize_SpecificExamples = [].
Proof. vm_compute. reflexivity. Qed.

(** X21: [TestFormatSize] passes. *)
Theorem TestFormatSize_passes : TestFormatSize = [].
Proof. vm_compute. reflexivity. Qed.

(** X22: [TestValidateSize] passes: the valid sizes give no error and the
    invalid ones give one. *)
Theorem TestValidateSize_passes : TestValidateSize = [].
Proof. vm_compute. reflexivity. Qed.
